(** * Cascaded regression for facial landmark alignment

    A shallow embedding of [facealignment.py]: the shape prior
    ([average_points]), the descriptor extraction at the current landmark
    estimate ([compute_descriptors]), the cascade trainer
    ([cascaded_regression]) and the cascade predictor
    ([regression_predict]); then the helpers around them ([resize_points],
    [euclid_dist], [save_as_csv]), the damping schedule and the last step
    of the script, which trains, predicts, scales back and saves.

    Numbers.  The script computes with float64 arrays; the embedding uses
    exact rationals ([Qc]), so every statement below is a statement about
    the exact arithmetic the floating-point code approximates.  Two values
    the script computes by different operations are equated only for the
    script's own scale, [resize_scale = 0.25], and its inverse [4.0]:
    powers of two, by which float64 multiplies without rounding.

    Objects.  NumPy arrays and Python lists are heap objects that the
    script reaches through references; the embedding keeps an explicit
    heap, allocates where the script creates an object ([.copy()],
    [a + b], [[None] * n], [np.array(...)]) and writes where the script
    assigns into a list slot.

    External code.  OpenCV's SIFT and scikit-learn's [LinearRegression] are
    not part of the repository; they enter as the two interfaces
    [DescriptorBackend] and [Regression]. *)

From Stdlib Require Import QArith Qcanon Lia.
From stdpp Require Import base numbers list strings gmap.

Open Scope Qc_scope.

(** ** Values *)

(** One landmark, a row [(x, y)] of a [(K, 2)] array. *)
Abbreviation Point := (Qc * Qc)%type.

(** A [(K, 2)] array of landmark coordinates. *)
Abbreviation Shape := (list Point).

(** A one-dimensional float array. *)
Abbreviation Vec := (list Qc).

(** A two-dimensional float array, as its list of rows. *)
Abbreviation Mat := (list (list Qc)).

(** A preprocessed (greyscale) image: rows of 8-bit samples. *)
Abbreviation Image := (list (list N)).

(** [cv2.KeyPoint(x, y, size)]. *)
Record KeyPoint : Type := mkKeyPoint { kp_x : Qc; kp_y : Qc; kp_size : Qc }.

(** Python exceptions the modelled code can raise. [FitError] stands for
    whatever the least-squares solver raises. *)
Inductive exn : Type :=
| IndexError
| ValueError
| TypeError
| AttributeError
| NameError
| FitError.

Inductive result (A : Type) : Type :=
| Ok (a : A)
| Raise (e : exn).
Arguments Ok {A} a.
Arguments Raise {A} e.

(** ** The two external interfaces *)

(** [sift.compute(image, keypoints)]: the descriptor matrix, one row per
    keypoint, or [None]. *)
Class DescriptorBackend : Type :=
  { sift_compute : Image -> list KeyPoint -> option Mat }.

(** [linear_model.LinearRegression]: [fit] either raises or yields the
    fitted model, [predict] maps a batch of feature rows to a batch of
    output rows. *)
Class Regression : Type :=
  { Regressor : Type;
    fit : Mat -> Mat -> result Regressor;
    predict : Regressor -> Mat -> result Mat }.

(** ** Heap *)

Abbreviation loc := nat.

Inductive object : Type :=
| NdPoints (s : Shape)              (* float array of shape (K, 2) *)
| NdPointsArr (ss : list Shape)     (* float array of shape (N, K, 2) *)
| NdImages (imgs : list Image)      (* array of N images *)
| PyList (items : list (option loc)). (* Python list of None / array references *)

Abbreviation heap := (list object).

(** Equality of exceptions, results and heap objects is decidable; closed
    equations between outcomes of runs are settled by evaluation. *)
#[export] Instance exn_eq_dec : EqDecision exn.
Proof. solve_decision. Defined.

#[export] Instance result_eq_dec {A} `{EqDecision A} : EqDecision (result A).
Proof. solve_decision. Defined.

#[export] Instance object_eq_dec : EqDecision object.
Proof. solve_decision. Defined.

Ltac by_evaluation := apply (bool_decide_unpack _); vm_compute; exact I.

(** ** State and exception monad *)

Definition M (A : Type) : Type := heap -> result A * heap.

Definition ret {A} (a : A) : M A := fun h => (Ok a, h).

Definition bind {A B} (m : M A) (k : A -> M B) : M B :=
  fun h => match m h with
           | (Ok a, h') => k a h'
           | (Raise e, h') => (Raise e, h')
           end.

Definition lift {A} (r : result A) : M A := fun h => (r, h).

Notation "'let*' x ':=' m 'in' k" := (bind m (fun x => k))
  (at level 10, x pattern, m at level 100, k at level 200).

Fixpoint mapM {A B} (f : A -> M B) (l : list A) : M (list B) :=
  match l with
  | [] => ret []
  | a :: l' => let* b := f a in
               let* bs := mapM f l' in
               ret (b :: bs)
  end.

Fixpoint foldM {A B} (f : B -> A -> M B) (l : list A) (b : B) : M B :=
  match l with
  | [] => ret b
  | a :: l' => let* b' := f b a in foldM f l' b'
  end.

(** ** Heap primitives *)

Definition alloc (o : object) : M loc :=
  fun h => (Ok (length h), h ++ [o]).

Definition load (l : loc) : M object :=
  fun h => match h !! l with
           | Some o => (Ok o, h)
           | None => (Raise NameError, h)
           end.

Definition store (l : loc) (o : object) : M unit :=
  fun h => if decide (l < length h)%nat
           then (Ok tt, <[l:=o]> h)
           else (Raise NameError, h).

Definition load_points (l : loc) : M Shape :=
  let* o := load l in
  match o with NdPoints s => ret s | _ => lift (Raise TypeError) end.

Definition load_points_arr (l : loc) : M (list Shape) :=
  let* o := load l in
  match o with NdPointsArr ss => ret ss | _ => lift (Raise TypeError) end.

Definition load_images (l : loc) : M (list Image) :=
  let* o := load l in
  match o with NdImages imgs => ret imgs | _ => lift (Raise TypeError) end.

Definition load_list (l : loc) : M (list (option loc)) :=
  let* o := load l in
  match o with PyList items => ret items | _ => lift (Raise TypeError) end.

(** [seq[i]] for a non-negative index. *)
Definition py_getitem {A} (l : list A) (i : nat) : result A :=
  match l !! i with Some a => Ok a | None => Raise IndexError end.

(** [len(a)] *)
Definition py_len (l : loc) : M nat :=
  let* o := load l in
  match o with
  | NdPoints s => ret (length s)
  | NdPointsArr ss => ret (length ss)
  | NdImages imgs => ret (length imgs)
  | PyList items => ret (length items)
  end.

(** [images[j]] *)
Definition getitem_image (images : loc) (j : nat) : M Image :=
  let* imgs := load_images images in lift (py_getitem imgs j).

(** [points[j]], read as a value *)
Definition getitem_points (points : loc) (j : nat) : M Shape :=
  let* ss := load_points_arr points in lift (py_getitem ss j).

(** [lst[j]] *)
Definition list_getitem (lst : loc) (j : nat) : M (option loc) :=
  let* items := load_list lst in lift (py_getitem items j).

(** [lst[j] = v] *)
Definition list_setitem (lst : loc) (j : nat) (v : option loc) : M unit :=
  let* items := load_list lst in
  if decide (j < length items)%nat
  then store lst (PyList (<[j:=v]> items))
  else lift (Raise IndexError).

(** The array a list slot refers to; arithmetic on [None] is a
    [TypeError]. *)
Definition getitem_array (lst : loc) (j : nat) : M Shape :=
  let* r := list_getitem lst j in
  match r with
  | Some c => load_points c
  | None => lift (Raise TypeError)
  end.

(** [a.copy()] *)
Definition np_copy (a : loc) : M loc :=
  let* s := load_points a in alloc (NdPoints s).

(** ** NumPy on values *)

(** [s.flatten()] of a [(K, 2)] array: row-major. *)
Definition flatten (s : Shape) : Vec :=
  concat (map (fun p : Point => [p.1; p.2]) s).

(** [v.reshape(-1, 2)]. *)
Fixpoint reshape2 (v : Vec) : result Shape :=
  match v with
  | [] => Ok []
  | x :: y :: v' =>
      match reshape2 v' with
      | Ok s => Ok ((x, y) :: s)
      | Raise e => Raise e
      end
  | [_] => Raise ValueError
  end.

(** Element-wise binary operation on two [(K, 2)] arrays, with NumPy's
    broadcasting along the first axis (a single row stretches). *)
Definition pt_op (f : Qc -> Qc -> Qc) (p q : Point) : Point :=
  (f p.1 q.1, f p.2 q.2).

Definition np_binop (f : Qc -> Qc -> Qc) (a b : Shape) : result Shape :=
  if decide (length a = length b) then Ok (zip_with (pt_op f) a b)
  else match a, b with
       | [p], _ => Ok (map (fun q => pt_op f p q) b)
       | _, [q] => Ok (map (fun p => pt_op f p q) a)
       | _, _ => Raise ValueError
       end.

Definition np_sub : Shape -> Shape -> result Shape := np_binop Qcminus.
Definition np_add : Shape -> Shape -> result Shape := np_binop Qcplus.

(** [d * v] for a Python float [d]. *)
Definition scale (d : Qc) (v : Vec) : Vec := map (Qcmult d) v.

Definition np_scale (d : Qc) (s : Shape) : Shape :=
  map (fun p : Point => (d * p.1, d * p.2)) s.

(** [np.array(rows)]: stacking needs rows of one length; NumPy raises
    [ValueError] on ragged input (since version 1.24; before that the
    result was an array of objects, which the least-squares solver
    rejects with the same exception). *)
Definition regular {A} (rows : list (list A)) : bool :=
  match rows with
  | [] => true
  | r :: rest => forallb (fun r' => Nat.eqb (length r') (length r)) rest
  end.

Definition np_array {A} (rows : list (list A)) : result (list (list A)) :=
  if regular rows then Ok rows else Raise ValueError.

(** [descriptors.flatten()]; [None] has no such attribute. *)
Definition descriptors_flatten (descriptors : option Mat) : result Vec :=
  match descriptors with
  | Some m => Ok (concat m)
  | None => Raise AttributeError
  end.

(** [np.mean(a, axis=0)] of an [(N, K, 2)] array: the sum along the first
    axis divided by [N]. *)
Fixpoint np_sum_axis0 (ss : list Shape) : Shape :=
  match ss with
  | [] => []
  | [s] => s
  | s :: rest => zip_with (pt_op Qcplus) s (np_sum_axis0 rest)
  end.

Definition Qc_of_nat (n : nat) : Qc := Q2Qc (inject_Z (Z.of_nat n)).

Definition np_mean_axis0 (ss : list Shape) : Shape :=
  let n := Qc_of_nat (length ss) in
  map (fun p : Point => (p.1 / n, p.2 / n)) (np_sum_axis0 ss).

(** Sum of a list of numbers. *)
Definition Qc_sum (v : Vec) : Qc := foldr Qcplus 0 v.

(** Landmark [k] of a shape. *)
Definition landmark (s : Shape) (k : nat) : Point := nth k s (0, 0).

(** ** Module-level state *)

(** [resize_scale = 0.25] *)
Definition resize_scale : Qc := Q2Qc (1 # 4).

(** [average_points = np.mean(train_points_resized, axis=0)]: computed
    once, when the module is loaded, from the whole resized training set,
    and bound to a global name. *)
Definition module_average_points (train_points_resized : loc) : M loc :=
  let* ss := load_points_arr train_points_resized in
  alloc (NdPoints (np_mean_axis0 ss)).

(** ** Descriptor extraction, training and prediction *)

Section Cascade.
Context {DB : DescriptorBackend} {RG : Regression}.

(** The global [average_points]: a reference to the prior array. *)
Variable average_points : loc.

Definition compute_descriptors (image : Image) (points : Shape) : option Mat :=
  let keypoint_size := Q2Qc 10 * resize_scale in
  let keypoints := map (fun p : Point => mkKeyPoint p.1 p.2 keypoint_size) points in
  sift_compute image keypoints.

(** Lines 111-112: a sample without a prediction starts from a copy of
    the prior. *)
Definition init_prediction (predicted_train_points : loc) (j : nat) : M unit :=
  let* cur := list_getitem predicted_train_points j in
  match cur with
  | None => let* c := np_copy average_points in
            list_setitem predicted_train_points j (Some c)
  | Some _ => ret tt
  end.

(** Body of the first inner loop (lines 108-119): the feature row and
    the target row of sample [j] at stage [i]. *)
Definition sample_row (damping_factors : list Qc)
    (train_images train_points predicted_train_points : loc)
    (i j : nat) : M (Vec * Vec) :=
  let* img := getitem_image train_images j in
  let* _ := init_prediction predicted_train_points j in
  let* p := getitem_array predicted_train_points j in
  let descriptors := compute_descriptors img p in
  let* gt := getitem_points train_points j in
  let* diff := lift (np_sub gt p) in
  let delta := flatten diff in
  let* x := lift (descriptors_flatten descriptors) in
  let* d := lift (py_getitem damping_factors i) in
  ret (x, scale d delta).

(** Body of the second inner loop (lines 131-138): re-extract the
    descriptors, predict the delta, rebind the slot to a new array. *)
Definition update_sample (damping_factors : list Qc)
    (train_images predicted_train_points : loc)
    (model : Regressor) (i k : nat) : M unit :=
  let* img := getitem_image train_images k in
  let* p := getitem_array predicted_train_points k in
  let descriptors := compute_descriptors img p in
  let* x := lift (descriptors_flatten descriptors) in
  let x_feat := [x] in
  let* y := lift (predict model x_feat) in
  let* delta := lift (reshape2 (concat y)) in
  let* d := lift (py_getitem damping_factors i) in
  let* new := lift (np_add p (np_scale d delta)) in
  let* c := alloc (NdPoints new) in
  list_setitem predicted_train_points k (Some c).

(** One iteration of the outer loop (lines 105-138). *)
Definition train_stage (damping_factors : list Qc)
    (train_images train_points predicted_train_points : loc)
    (num_images : nat) (i : nat) : M Regressor :=
  let* rows := mapM (sample_row damping_factors train_images train_points
                       predicted_train_points i) (seq 0 num_images) in
  let* x_train := lift (np_array (map fst rows)) in
  let* y_train := lift (np_array (map snd rows)) in
  let* model := lift (fit x_train y_train) in
  let* _ := mapM (update_sample damping_factors train_images
                    predicted_train_points model i) (seq 0 num_images) in
  ret model.

Definition cascaded_regression (num_regressors : nat) (damping_factors : list Qc)
    (train_images train_points : loc) : M (list Regressor) :=
  let* num_images := py_len train_images in
  let* predicted_train_points := alloc (PyList (replicate num_images None)) in
  mapM (train_stage damping_factors train_images train_points
          predicted_train_points num_images) (seq 0 num_regressors).

(** One iteration of the refinement loop (lines 148-155). *)
Definition predict_step (regressors : list Regressor) (damping_factors : list Qc)
    (img : Image) (predicted_points : loc) (i : nat) : M loc :=
  let* regressor := lift (py_getitem regressors i) in
  let* p := load_points predicted_points in
  let descriptors := compute_descriptors img p in
  let* x := lift (descriptors_flatten descriptors) in
  let x_feat := [x] in
  let* y := lift (predict regressor x_feat) in
  let* delta := lift (reshape2 (concat y)) in
  let* d := lift (py_getitem damping_factors i) in
  let* new := lift (np_add p (np_scale d delta)) in
  alloc (NdPoints new).

(** Body of the loop over images (lines 145-157). *)
Definition predict_image (regressors : list Regressor) (damping_factors : list Qc)
    (img : Image) : M loc :=
  let* predicted_points := np_copy average_points in
  foldM (predict_step regressors damping_factors img)
        (seq 0 (length regressors)) predicted_points.

Definition regression_predict (images : loc) (regressors : list Regressor)
    (damping_factors : list Qc) : M loc :=
  let* imgs := load_images images in
  let* predictions := mapM (predict_image regressors damping_factors) imgs in
  let* shapes := mapM load_points predictions in
  let* stacked := lift (np_array shapes) in
  alloc (NdPointsArr stacked).

End Cascade.

(** ** The shape update as the specification words it

    "Re-predict deltas for every sample using the just-fitted regressor on
    the same X": the update loop takes row [k] of the batch [x_train] the
    regressor was fitted on, where the script extracts the descriptors a
    second time.  Everything else is as in [update_sample],
    [train_stage] and [cascaded_regression]. *)

Section CascadeSameX.
Context {DB : DescriptorBackend} {RG : Regression}.
Variable average_points : loc.

Definition update_sample_same_x (damping_factors : list Qc)
    (predicted_train_points : loc) (model : Regressor) (x_train : Mat)
    (i k : nat) : M unit :=
  let* x := lift (py_getitem x_train k) in
  let* p := getitem_array predicted_train_points k in
  let x_feat := [x] in
  let* y := lift (predict model x_feat) in
  let* delta := lift (reshape2 (concat y)) in
  let* d := lift (py_getitem damping_factors i) in
  let* new := lift (np_add p (np_scale d delta)) in
  let* c := alloc (NdPoints new) in
  list_setitem predicted_train_points k (Some c).

Definition train_stage_same_x (damping_factors : list Qc)
    (train_images train_points predicted_train_points : loc)
    (num_images : nat) (i : nat) : M Regressor :=
  let* rows := mapM (sample_row average_points damping_factors train_images
                       train_points predicted_train_points i) (seq 0 num_images) in
  let* x_train := lift (np_array (map fst rows)) in
  let* y_train := lift (np_array (map snd rows)) in
  let* model := lift (fit x_train y_train) in
  let* _ := mapM (update_sample_same_x damping_factors predicted_train_points
                    model x_train i) (seq 0 num_images) in
  ret model.

Definition cascaded_regression_same_x (num_regressors : nat)
    (damping_factors : list Qc) (train_images train_points : loc)
    : M (list Regressor) :=
  let* num_images := py_len train_images in
  let* predicted_train_points := alloc (PyList (replicate num_images None)) in
  mapM (train_stage_same_x damping_factors train_images train_points
          predicted_train_points num_images) (seq 0 num_regressors).

End CascadeSameX.

(** * Notions used in the statements *)

(** ** Results without a heap *)

Definition rbind {A B} (r : result A) (k : A -> result B) : result B :=
  match r with Ok a => k a | Raise e => Raise e end.

Notation "'let?' x ':=' r 'in' k" := (rbind r (fun x => k))
  (at level 10, x pattern, r at level 100, k at level 200).

Fixpoint mapR {A B} (f : A -> result B) (l : list A) : result (list B) :=
  match l with
  | [] => Ok []
  | a :: l' => let? b := f a in let? bs := mapR f l' in Ok (b :: bs)
  end.

(** ** Frame

    [preserves_below n m]: started in a heap with at least [n] cells, [m]
    never shrinks the heap and leaves every cell below [n] as it was,
    whether it returns or raises. *)

Definition preserves_below (n : nat) {A} (m : M A) : Prop :=
  forall h r h', (n <= length h)%nat -> m h = (r, h') ->
    (length h <= length h')%nat /\ forall l, (l < n)%nat -> h' !! l = h !! l.

(** ** Contents of the trainer's cells *)

(** Slot [j] of the list at [ptp] refers to an array with contents [p]. *)
Definition slot_holds (h : heap) (ptp : loc) (j : nat) (p : Shape) : Prop :=
  exists items c, h !! ptp = Some (PyList items) /\ items !! j = Some (Some c) /\
                  h !! c = Some (NdPoints p).

(** Slot [j] of the list at [ptp] is [None]. *)
Definition slot_none (h : heap) (ptp : loc) (j : nat) : Prop :=
  exists items, h !! ptp = Some (PyList items) /\ items !! j = Some None.

(** Entry [j] of the image array at [ti] is [img]. *)
Definition image_at (h : heap) (ti : loc) (j : nat) (img : Image) : Prop :=
  exists imgs, h !! ti = Some (NdImages imgs) /\ imgs !! j = Some img.

(** Entry [j] of the [(N, K, 2)] array at [tp] is [gt]. *)
Definition points_at (h : heap) (tp : loc) (j : nat) (gt : Shape) : Prop :=
  exists gts, h !! tp = Some (NdPointsArr gts) /\ gts !! j = Some gt.

(** [h'] is [h] with one new array [o] and slot [k] of the list at [ptp]
    rebound to it. *)
Definition rebinds (h : heap) (ptp : loc) (k : nat) (o : object) (h' : heap) : Prop :=
  exists items, h !! ptp = Some (PyList items) /\ (k < length items)%nat /\
                h' = <[ptp := PyList (<[k := Some (length h)]> items)]> (h ++ [o]).

Definition rebind_slot (ptp : loc) (k : nat) (r : result Shape) : M unit :=
  let* new := lift r in
  let* c := alloc (NdPoints new) in
  list_setitem ptp k (Some c).

(** ** Values computed by the cascade *)

Section Values.
Context {DB : DescriptorBackend} {RG : Regression}.

Definition step_value (regs : list Regressor) (dfs : list Qc) (img : Image)
    (p : Shape) (i : nat) : result Shape :=
  let? regressor := py_getitem regs i in
  let? x := descriptors_flatten (compute_descriptors img p) in
  let? y := predict regressor [x] in
  let? delta := reshape2 (concat y) in
  let? d := py_getitem dfs i in
  np_add p (np_scale d delta).

Fixpoint fold_value (regs : list Regressor) (dfs : list Qc) (img : Image)
    (stages : list nat) (p : Shape) : result Shape :=
  match stages with
  | [] => Ok p
  | i :: stages' => let? p' := step_value regs dfs img p i in
                    fold_value regs dfs img stages' p'
  end.

Definition predict_image_value (prior : Shape) (regs : list Regressor)
    (dfs : list Qc) (img : Image) : result Shape :=
  fold_value regs dfs img (seq 0 (length regs)) prior.

Definition regression_predict_value (prior : Shape) (imgs : list Image)
    (regs : list Regressor) (dfs : list Qc) : result (list Shape) :=
  let? ss := mapR (predict_image_value prior regs dfs) imgs in
  np_array ss.

(** The raw delta of a fitted model on feature row [x], damped and added
    to [p]. *)
Definition apply_regressor (model : Regressor) (dfs : list Qc) (x : Vec)
    (p : Shape) (i : nat) : result Shape :=
  let? y := predict model [x] in
  let? delta := reshape2 (concat y) in
  let? d := py_getitem dfs i in
  np_add p (np_scale d delta).

(** What a feature row and a target row are made of. *)
Definition row_ready (dfs : list Qc) (ti tp ptp : loc) (i : nat)
    (h : heap) (j : nat) (row : Vec * Vec) : Prop :=
  exists img p gt diff d,
    image_at h ti j img /\ slot_holds h ptp j p /\ points_at h tp j gt /\
    descriptors_flatten (compute_descriptors img p) = Ok row.1 /\
    np_sub gt p = Ok diff /\ dfs !! i = Some d /\
    row.2 = scale d (flatten diff).


(** What the cascade relies on from the descriptor backend: for a
    non-empty list of keypoints, one row of [D] numbers per keypoint. *)
Definition descriptor_contract (D : nat) : Prop :=
  forall img kps, kps <> [] ->
    exists m, sift_compute img kps = Some m /\ length m = length kps /\
              Forall (fun r : list Qc => length r = D) m.

End Values.

(** ** A small concrete backend

    One descriptor value per keypoint (the keypoint's abscissa times the
    image's first sample) and ordinary least squares for a single feature
    column, in closed form: slope [Sxy / Sxx] (zero, the minimum-norm
    choice, when [Sxx = 0]) and intercept [mean y - slope * mean x], for
    every output column. *)

Module Synthetic.

Definition brightness (img : Image) : Qc :=
  match img with
  | (v :: _) :: _ => Q2Qc (inject_Z (Z.of_N v))
  | _ => 0
  end.

Definition describe (img : Image) (kps : list KeyPoint) : option Mat :=
  match kps with
  | [] => None
  | _ => Some (map (fun kp => [kp_x kp * brightness img]) kps)
  end.

#[export] Instance backend : DescriptorBackend := {| sift_compute := describe |}.

Definition mean (v : Vec) : Qc := Qc_sum v / Qc_of_nat (length v).
Definition column (c : nat) (m : Mat) : Vec := map (fun r => nth c r 0) m.

Definition single_feature (x : Mat) : bool :=
  forallb (fun r => Nat.eqb (length r) 1) x.

(** Slope and intercept of the least-squares line through [(xs, ys)]. *)
Definition line (xs ys : Vec) : Qc * Qc :=
  let xbar := mean xs in
  let ybar := mean ys in
  let sxx := Qc_sum (map (fun x => (x - xbar) * (x - xbar)) xs) in
  let sxy := Qc_sum (zip_with (fun x y => (x - xbar) * (y - ybar)) xs ys) in
  let slope := if decide (sxx = 0) then 0 else sxy / sxx in
  (slope, ybar - slope * xbar).

Definition ols_fit (x y : Mat) : result (list (Qc * Qc)) :=
  match x, y with
  | _ :: _, y0 :: _ =>
      if single_feature x && Nat.eqb (length x) (length y)
      then Ok (map (fun c => line (column 0 x) (column c y)) (seq 0 (length y0)))
      else Raise FitError
  | _, _ => Raise FitError
  end.

Definition ols_predict (m : list (Qc * Qc)) (x : Mat) : result Mat :=
  if single_feature x
  then Ok (map (fun r => map (fun sb : Qc * Qc => sb.2 + sb.1 * nth 0 r 0) m) x)
  else Raise ValueError.

#[export] Instance regression : Regression :=
  {| Regressor := list (Qc * Qc); fit := ols_fit; predict := ols_predict |}.

Definition q (n d : Z) : Qc := Q2Qc (Qmake n (Z.to_pos d)).
Definition pt (x y : Z) : Point := (q x 1, q y 1).

(** A training set of three images with one landmark each, and the heap
    of the script once the module is loaded and the data is split. *)
Definition img_a : Image := [[1%N; 0%N]; [0%N; 0%N]].
Definition img_b : Image := [[4%N; 0%N]; [0%N; 0%N]].
Definition img_c : Image := [[2%N; 0%N]; [0%N; 0%N]].

Definition all_shapes : list Shape := [[pt 2 2]; [pt 6 4]; [pt 1 9]].
Definition all_images : list Image := [img_a; img_b; img_c].
Definition split_shapes : list Shape := [[pt 2 2]; [pt 6 4]].
Definition split_images : list Image := [img_a; img_b].
Definition wide_shapes : list Shape := [[pt 2 2; pt 3 1]; [pt 6 4; pt 5 5]].

(** The cells: the whole resized training set, its images, the prior, the
    shapes and images of the training split, and a set of shapes with two
    landmarks each. *)
Definition train_points_resized : loc := 0.
Definition train_images_preprocessed : loc := 1.
Definition average_points : loc := 2.
Definition train_pts_split_resized : loc := 3.
Definition train_imgs_split_preprocessed : loc := 4.
Definition wide_points : loc := 5.

Definition heap0 : heap := [NdPointsArr all_shapes; NdImages all_images].

Definition heap1 : heap :=
  heap0 ++ [NdPoints [pt 3 5]; NdPointsArr split_shapes; NdImages split_images;
            NdPointsArr wide_shapes].

Definition half : Qc := q 1 2.

(** Outcome of a run: the result and the final heap. *)
Definition train1 :=
  cascaded_regression average_points 1 [half]
    train_imgs_split_preprocessed train_pts_split_resized heap1.
Definition train2 :=
  cascaded_regression average_points 2 [half; 1]
    train_images_preprocessed train_points_resized heap1.
Definition regs2 : list Regressor :=
  match train2.1 with Ok regs => regs | Raise _ => [] end.
Definition predict12 :=
  regression_predict average_points train_images_preprocessed regs2 [half; 1] train2.2.
Definition predict21 :=
  regression_predict average_points train_images_preprocessed (rev regs2) [1; half]
    train2.2.
Definition predict12_again :=
  regression_predict average_points train_images_preprocessed regs2 [half; 1]
    predict12.2.

(** The first regressor of a run's result. *)
Definition model1 : Regressor :=
  match train1.1 with Ok (model :: _) => model | _ => [] end.





(** A run on the two-landmark shapes: stage 0, then the batch of stage 1,
    whose rows have two features. *)
Definition wide_stage0 :=
  mapM (train_stage average_points [half; 1] train_imgs_split_preprocessed wide_points
          (length heap1) 2) (seq 0 1)
       (heap1 ++ [PyList (replicate 2 None)]).
Definition wide_regs : list Regressor :=
  match wide_stage0.1 with Ok regs => regs | Raise _ => [] end.
Definition wide_batch :=
  mapM (sample_row average_points [half; 1] train_imgs_split_preprocessed wide_points
          (length heap1) 1) (seq 0 2) wide_stage0.2.
Definition wide_rows : list (Vec * Vec) :=
  match wide_batch.1 with Ok rows => rows | Raise _ => [] end.

(** Lines 101 and 111-112 for sample 0, then [predicted_train_points[0]]:
    the shape a training sample starts from. *)
Definition first_initial_shape : M Shape :=
  let* predicted_train_points := alloc (PyList (replicate 2 None)) in
  let* _ := init_prediction average_points predicted_train_points 0 in
  getitem_array predicted_train_points 0.

End Synthetic.

(** * Notions for the properties beyond the cascade's core claims *)

Section CascadeValue.
Context {DB : DescriptorBackend} {RG : Regression}.
Variable average_points : loc.

(** The shape sample [j] stands at: the array its slot refers to, or the
    prior while the slot is still [None]. *)
Definition current_shape (h : heap) (ptp : loc) (j : nat) (p : Shape) : Prop :=
  slot_holds h ptp j p \/
  (slot_none h ptp j /\ h !! average_points = Some (NdPoints p)).

(** One stage applied to a shape: descriptors at [p], the model's delta,
    damped and added. *)
Definition stage_value (model : Regressor) (dfs : list Qc) (img : Image)
    (p : Shape) (i : nat) : result Shape :=
  let? x := descriptors_flatten (compute_descriptors img p) in
  apply_regressor model dfs x p i.

(** The models of stages [i], [i+1], ... applied in turn. *)
Fixpoint cascade_value (dfs : list Qc) (img : Image) (models : list Regressor)
    (i : nat) (p : Shape) : result Shape :=
  match models with
  | [] => Ok p
  | m :: ms => let? p' := stage_value m dfs img p i in
               cascade_value dfs img ms (S i) p'
  end.

End CascadeValue.

(** * The script's helper functions *)

(** [points[:, :] * scale]: every coordinate times [scale], a product of
    rationals where the script rounds to float64. *)
Definition np_mul_scalar (points : Shape) (scale : Qc) : Shape :=
  map (fun p : Point => (p.1 * scale, p.2 * scale)) points.

(** [resize_points] (lines 69-73): every shape of the array times
    [scale], stacked into a new array. *)
Definition resize_points (pointsArr : loc) (scale : Qc) : M loc :=
  let* arr := load_points_arr pointsArr in
  let resized_pointsArr := map (fun points => np_mul_scalar points scale) arr in
  let* stacked := lift (np_array resized_pointsArr) in
  alloc (NdPointsArr stacked).

(** [np.sqrt], the one NumPy function of the script that leaves the
    rationals; it enters as an interface, as SIFT and the regression do. *)
Class NpSqrt : Type := { np_sqrt : Qc -> Qc }.

(** [euclid_dist] (lines 21-31) on two [(N, K, 2)] arrays: both reshaped
    to rows of two, subtracted, squared, summed along the last axis, and
    the square root taken. *)
Definition euclid_dist `{NpSqrt} (pred_pts gt_pts : list Shape) : result Vec :=
  let pred_pts := concat pred_pts in
  let gt_pts := concat gt_pts in
  let? diff := np_sub pred_pts gt_pts in
  Ok (map (fun p : Point => np_sqrt (p.1 * p.1 + p.2 * p.2)) diff).

(** The two assertions of [save_as_csv], by their messages. *)
Inductive assertion_error : Type :=
| wrong_number_of_image_points
| wrong_number_of_points.

#[export] Instance assertion_error_eq_dec : EqDecision assertion_error.
Proof. solve_decision. Defined.

(** The files written so far: path to rows of numbers. *)
Abbreviation files := (gmap string Mat).

(** [np.prod(points.shape[1:])] of an [(N, K, 2)] array. *)
Definition shape_tail_prod (points : list Shape) : nat :=
  match points with
  | [] => 0
  | s :: _ => length s * 2
  end.

(** [save_as_csv] (lines 33-41): two assertions, then one row per image
    written to [location + '/results_task2.csv']. *)
Definition save_as_csv (points : list Shape) (location : string) (fs : files)
    : assertion_error + files :=
  if negb (Nat.eqb (length points) 554) then inl wrong_number_of_image_points
  else if negb (Nat.eqb (shape_tail_prod points) (5 * 2)) then inl wrong_number_of_points
  else inr (<[location +:+ "/results_task2.csv" := map flatten points]> fs).

(** The last step of the script (lines 191-198): train on the whole set,
    predict the test images, scale the predictions back and save them.
    An exception of the first three calls is raised; the outcome of
    [save_as_csv] is the value. *)
Section FinalPredictions.
Context {DB : DescriptorBackend} {RG : Regression}.
Variable average_points : loc.

Definition final_predictions (num_regressors : nat) (damping_factors : list Qc)
    (train_images_preprocessed train_points_resized test_images_preprocessed : loc)
    (fs : files) : M (assertion_error + files) :=
  let* regressors := cascaded_regression average_points num_regressors damping_factors
                       train_images_preprocessed train_points_resized in
  let* test_predictions := regression_predict average_points test_images_preprocessed
                             regressors damping_factors in
  let* test_predictions_resized := resize_points test_predictions (1 / resize_scale) in
  let* points := load_points_arr test_predictions_resized in
  ret (save_as_csv points "." fs).

End FinalPredictions.

(** [np.linspace(start, stop, num)]: [arange(0, num)] times the step
    (or, when the step is zero, divided by [num - 1] and multiplied by
    [stop - start]; with a single sample there is no step and the sample
    is multiplied by [stop - start]), plus [start], the last sample
    overwritten with [stop] when there is more than one. *)
Definition np_linspace (start stop : Qc) (num : nat) : Vec :=
  let div := (num - 1)%nat in
  let delta := stop - start in
  let y := map Qc_of_nat (seq 0 num) in
  let y :=
    match div with
    | O => map (fun v => v * delta) y
    | S _ =>
        let step := delta / Qc_of_nat div in
        if decide (step = 0)
        then map (fun v => v / Qc_of_nat div * delta) y
        else map (fun v => v * step) y
    end in
  let y := map (fun v => v + start) y in
  if decide (1 < num)%nat then <[div := stop]> y else y.

(** [num_regressors = 5] and
    [damping_factors = np.linspace(1.0, 0.1, num_regressors).tolist()]
    (lines 172-173); the schedule as a function of the number of stages
    it is computed from. *)
Definition num_regressors : nat := 5.

Definition damping_factors (num_regressors : nat) : Vec :=
  np_linspace 1 (Q2Qc (1 # 10)) num_regressors.

(** Concrete data for the helper functions. *)
Module Scripted.

(** A square root that is exact on squares of rationals. *)
Definition exact_sqrt (q : Qc) : Qc :=
  Q2Qc (Qmake (Z.sqrt (Qnum q)) (Pos.sqrt (Qden q))).

#[export] Instance sqrt_on_squares : NpSqrt := {| np_sqrt := exact_sqrt |}.

Definition five_points : Shape :=
  [Synthetic.pt 1 2; Synthetic.pt 3 4; Synthetic.pt 5 6; Synthetic.pt 7 8;
   Synthetic.pt 9 10].

Definition predictions_554 : list Shape := replicate 554 five_points.

(** Least squares with an intercept only: the fitted model is the vector
    of column means of the targets, returned for every feature row. *)
Definition column_means (y : Mat) : Vec :=
  match y with
  | [] => []
  | y0 :: _ => map (fun c => Synthetic.mean (Synthetic.column c y)) (seq 0 (length y0))
  end.

Definition intercept_fit (x y : Mat) : result Vec :=
  match x with
  | [] => Raise FitError
  | _ :: _ => if Nat.eqb (length x) (length y) then Ok (column_means y)
              else Raise FitError
  end.

Definition intercept_predict (m : Vec) (x : Mat) : result Mat :=
  Ok (map (fun _ => m) x).

Definition intercept_regression : Regression :=
  {| Regressor := Vec; fit := intercept_fit; predict := intercept_predict |}.

(** A heap with an empty training set: the images, the shapes, the prior. *)
Definition heap_no_images : heap :=
  [NdImages []; NdPointsArr []; NdPoints [Synthetic.pt 3 5]].

(** The heap of the last step: three training shapes of five landmarks,
    their images, a prior away from their mean, and 554 test images. *)
Definition other_points : Shape :=
  [Synthetic.pt 3 2; Synthetic.pt 5 4; Synthetic.pt 7 6; Synthetic.pt 9 8;
   Synthetic.pt 11 10].
Definition mean_points : Shape :=
  [Synthetic.pt 2 2; Synthetic.pt 4 4; Synthetic.pt 6 6; Synthetic.pt 8 8;
   Synthetic.pt 10 10].

Definition heap_last_step : heap :=
  [NdPointsArr [five_points; other_points; mean_points];
   NdImages Synthetic.all_images;
   NdPoints five_points;
   NdImages (replicate 554 Synthetic.img_b)].

Definition last_step :=
  final_predictions (DB := Synthetic.backend) (RG := intercept_regression)
    2 1 [Synthetic.half] 1 0 3 ∅ heap_last_step.

Definition last_step_files : files :=
  match last_step.1 with Ok (inr fs) => fs | _ => ∅ end.

End Scripted.

(** * Reasoning about the monad *)

Lemma bind_Ok {A B} (m : M A) (k : A -> M B) h a h1 :
  m h = (Ok a, h1) -> bind m k h = k a h1.
Proof. unfold bind. intros ->. reflexivity. Qed.

Lemma bind_Raise {A B} (m : M A) (k : A -> M B) h e h1 :
  m h = (Raise e, h1) -> bind m k h = (Raise e, h1).
Proof. unfold bind. intros ->. reflexivity. Qed.

Lemma bind_inv {A B} (m : M A) (k : A -> M B) h r h' :
  bind m k h = (r, h') ->
  (exists a h1, m h = (Ok a, h1) /\ k a h1 = (r, h')) \/
  (exists e, m h = (Raise e, h') /\ r = Raise e).
Proof.
  unfold bind. destruct (m h) as [[a|e] h1]; intros Hk.
  - left. eauto.
  - right. inversion Hk; subst. eauto.
Qed.

Lemma bind_inv_Ok {A B} (m : M A) (k : A -> M B) h b h' :
  bind m k h = (Ok b, h') ->
  exists a h1, m h = (Ok a, h1) /\ k a h1 = (Ok b, h').
Proof.
  intros Hb. apply bind_inv in Hb as [(a & h1 & Hm & Hk)|(e & _ & He)]; [eauto|discriminate].
Qed.

Lemma lift_inv {A} (r r' : result A) h h' : lift r h = (r', h') -> r' = r /\ h' = h.
Proof. unfold lift. intros Heq. inversion Heq. auto. Qed.

Lemma ret_inv {A} (a : A) r h h' : ret a h = (r, h') -> r = Ok a /\ h' = h.
Proof. unfold ret. intros Heq. inversion Heq. auto. Qed.

Lemma bind_assoc {A B C} (m : M A) (k : A -> M B) (k' : B -> M C) h :
  bind (bind m k) k' h = bind m (fun a => bind (k a) k') h.
Proof. unfold bind. destruct (m h) as [[a|e] h1]; reflexivity. Qed.

Lemma bind_ret_l {A B} (a : A) (k : A -> M B) h : bind (ret a) k h = k a h.
Proof. reflexivity. Qed.

Lemma bind_ret_r {A} (m : M A) h : bind m ret h = m h.
Proof. unfold bind, ret. destruct (m h) as [[a|e] h1]; reflexivity. Qed.

Lemma bind_ext {A B} (m : M A) (k k' : A -> M B) h :
  (forall a h1, k a h1 = k' a h1) -> bind m k h = bind m k' h.
Proof. intros Hk. unfold bind. destruct (m h) as [[a|e] h1]; auto. Qed.

Lemma bind_cong {A B} (m m' : M A) (k : A -> M B) h :
  m h = m' h -> bind m k h = bind m' k h.
Proof. unfold bind. intros ->. reflexivity. Qed.

Lemma mapM_app {A B} (f : A -> M B) l1 l2 h :
  mapM f (l1 ++ l2) h =
  (let* bs1 := mapM f l1 in let* bs2 := mapM f l2 in ret (bs1 ++ bs2)) h.
Proof.
  revert h. induction l1 as [|a l1 IH]; intros h; simpl.
  - rewrite bind_ret_l. symmetry. apply bind_ret_r.
  - rewrite bind_assoc. apply bind_ext. intros b h1.
    rewrite bind_assoc. rewrite (bind_cong _ _ _ _ (IH h1)).
    rewrite bind_assoc. apply bind_ext. intros bs1 h2.
    rewrite bind_assoc. rewrite bind_ret_l. apply bind_ext. intros bs2 h3.
    rewrite bind_ret_l. reflexivity.
Qed.

Lemma mapM_length {A B} (f : A -> M B) l h bs h' :
  mapM f l h = (Ok bs, h') -> length bs = length l.
Proof.
  revert h bs h'. induction l as [|a l IH]; intros h bs h'; simpl.
  - intros [Hbs _]%ret_inv. inversion Hbs. reflexivity.
  - intros (b & h1 & _ & (bs' & h2 & Hl & [Hbs _]%ret_inv)%bind_inv_Ok)%bind_inv_Ok.
    inversion Hbs. simpl. f_equal. eauto.
Qed.

(** ** Reads *)

Lemma load_inv l h r h' :
  load l h = (r, h') ->
  h' = h /\ (r = Raise NameError /\ h !! l = None \/ exists o, r = Ok o /\ h !! l = Some o).
Proof.
  unfold load. destruct (h !! l) as [o|]; intros [= <- <-]; eauto.
Qed.

Lemma load_points_inv l h r h' :
  load_points l h = (r, h') ->
  h' = h /\ forall s, r = Ok s -> h !! l = Some (NdPoints s).
Proof.
  unfold load_points, bind, load, ret, lift.
  destruct (h !! l) as [[]|]; intros [= <- <-]; (split; [done|intros ? [=]; congruence]).
Qed.

Lemma load_points_eq l h s :
  h !! l = Some (NdPoints s) -> load_points l h = (Ok s, h).
Proof. unfold load_points, bind, load. intros ->. reflexivity. Qed.

Lemma load_points_arr_inv l h r h' :
  load_points_arr l h = (r, h') ->
  h' = h /\ forall ss, r = Ok ss -> h !! l = Some (NdPointsArr ss).
Proof.
  unfold load_points_arr, bind, load, ret, lift.
  destruct (h !! l) as [[]|]; intros [= <- <-]; (split; [done|intros ? [=]; congruence]).
Qed.

Lemma load_points_arr_eq l h ss :
  h !! l = Some (NdPointsArr ss) -> load_points_arr l h = (Ok ss, h).
Proof. unfold load_points_arr, bind, load. intros ->. reflexivity. Qed.

Lemma load_images_inv l h r h' :
  load_images l h = (r, h') ->
  h' = h /\ forall imgs, r = Ok imgs -> h !! l = Some (NdImages imgs).
Proof.
  unfold load_images, bind, load, ret, lift.
  destruct (h !! l) as [[]|]; intros [= <- <-]; (split; [done|intros ? [=]; congruence]).
Qed.

Lemma load_images_eq l h imgs :
  h !! l = Some (NdImages imgs) -> load_images l h = (Ok imgs, h).
Proof. unfold load_images, bind, load. intros ->. reflexivity. Qed.

Lemma load_list_inv l h r h' :
  load_list l h = (r, h') ->
  h' = h /\ forall items, r = Ok items -> h !! l = Some (PyList items).
Proof.
  unfold load_list, bind, load, ret, lift.
  destruct (h !! l) as [[]|]; intros [= <- <-]; (split; [done|intros ? [=]; congruence]).
Qed.

Lemma load_list_eq l h items :
  h !! l = Some (PyList items) -> load_list l h = (Ok items, h).
Proof. unfold load_list, bind, load. intros ->. reflexivity. Qed.

Lemma py_getitem_Ok {A} (l : list A) i a : py_getitem l i = Ok a <-> l !! i = Some a.
Proof. unfold py_getitem. destruct (l !! i); split; congruence. Qed.

(** * Frame: which cells a computation can change *)

Create HintDb frame.

Lemma pb_ret n {A} (a : A) : preserves_below n (ret a).
Proof. intros h r h' _ [_ ->]%ret_inv. auto. Qed.

Lemma pb_lift n {A} (r : result A) : preserves_below n (lift r).
Proof. intros h r' h' _ [_ ->]%lift_inv. auto. Qed.

Lemma pb_load n l : preserves_below n (load l).
Proof. intros h r h' _ [-> _]%load_inv. auto. Qed.

Lemma pb_alloc n o : preserves_below n (alloc o).
Proof.
  intros h r h' Hn [= <- <-]. rewrite length_app. split; [lia|].
  intros l Hl. apply lookup_app_l. lia.
Qed.

Lemma pb_store n l o : (n <= l)%nat -> preserves_below n (store l o).
Proof.
  intros Hl h r h' Hn. unfold store. case_decide; intros [= <- <-]; [|auto].
  rewrite length_insert. split; [lia|].
  intros l' Hl'. apply list_lookup_insert_ne. lia.
Qed.

Lemma pb_bind n {A B} (m : M A) (k : A -> M B) :
  preserves_below n m -> (forall a, preserves_below n (k a)) ->
  preserves_below n (bind m k).
Proof.
  intros Hm Hk h r h' Hn [(a & h1 & Hma & Hka)|(e & Hme & ->)]%bind_inv.
  - destruct (Hm _ _ _ Hn Hma) as [Hlen Hsame].
    destruct (Hk a h1 r h') as [Hlen' Hsame']; [lia|done|].
    split; [lia|]. intros l Hl. rewrite Hsame', Hsame; auto.
  - eauto.
Qed.

Lemma pb_mapM n {A B} (f : A -> M B) l :
  (forall a, preserves_below n (f a)) -> preserves_below n (mapM f l).
Proof.
  intros Hf. induction l as [|a l IH]; simpl.
  - apply pb_ret.
  - apply pb_bind; [auto|]. intros b. apply pb_bind; [auto|]. intros bs. apply pb_ret.
Qed.

Lemma pb_foldM n {A B} (f : B -> A -> M B) l b :
  (forall b a, preserves_below n (f b a)) -> preserves_below n (foldM f l b).
Proof.
  intros Hf. revert b. induction l as [|a l IH]; intros b; simpl.
  - apply pb_ret.
  - apply pb_bind; auto.
Qed.

#[export] Hint Resolve pb_ret pb_lift pb_load pb_alloc pb_store : frame.

Ltac frame_step :=
  lazymatch goal with
  | |- preserves_below _ (bind _ _) => apply pb_bind; [|intros ?]
  | |- preserves_below _ (mapM _ _) => apply pb_mapM; intros ?
  | |- preserves_below _ (foldM _ _ _) => apply pb_foldM; intros ? ?
  | |- preserves_below _ (match ?x with _ => _ end) => destruct x
  | |- preserves_below _ _ => solve [eauto with frame]
  end.

Ltac frame := repeat frame_step.

Lemma pb_load_points n l : preserves_below n (load_points l).
Proof. unfold load_points. frame. Qed.

Lemma pb_load_points_arr n l : preserves_below n (load_points_arr l).
Proof. unfold load_points_arr. frame. Qed.

Lemma pb_load_images n l : preserves_below n (load_images l).
Proof. unfold load_images. frame. Qed.

Lemma pb_load_list n l : preserves_below n (load_list l).
Proof. unfold load_list. frame. Qed.

#[export] Hint Resolve pb_load_points pb_load_points_arr pb_load_images pb_load_list : frame.

Lemma pb_py_len n l : preserves_below n (py_len l).
Proof. unfold py_len. frame. Qed.

Lemma pb_getitem_image n l j : preserves_below n (getitem_image l j).
Proof. unfold getitem_image. frame. Qed.

Lemma pb_getitem_points n l j : preserves_below n (getitem_points l j).
Proof. unfold getitem_points. frame. Qed.

Lemma pb_list_getitem n l j : preserves_below n (list_getitem l j).
Proof. unfold list_getitem. frame. Qed.

Lemma pb_list_setitem n l j v : (n <= l)%nat -> preserves_below n (list_setitem l j v).
Proof. intros Hl. unfold list_setitem. frame. Qed.

#[export] Hint Resolve pb_py_len pb_getitem_image pb_getitem_points
  pb_list_getitem pb_list_setitem : frame.

Lemma pb_getitem_array n l j : preserves_below n (getitem_array l j).
Proof. unfold getitem_array. frame. Qed.

Lemma pb_np_copy n l : preserves_below n (np_copy l).
Proof. unfold np_copy. frame. Qed.

#[export] Hint Resolve pb_getitem_array pb_np_copy : frame.

Section CascadeFrame.
Context {DB : DescriptorBackend} {RG : Regression}.
Variable average_points : loc.

Lemma pb_init_prediction n ptp j :
  (n <= ptp)%nat -> preserves_below n (init_prediction average_points ptp j).
Proof. intros Hl. unfold init_prediction. frame. Qed.

Lemma pb_sample_row n dfs ti tp ptp i j :
  (n <= ptp)%nat -> preserves_below n (sample_row average_points dfs ti tp ptp i j).
Proof.
  intros Hl. unfold sample_row. pose proof (pb_init_prediction n ptp j Hl). frame.
Qed.

Lemma pb_update_sample n dfs ti ptp model i k :
  (n <= ptp)%nat -> preserves_below n (update_sample dfs ti ptp model i k).
Proof. intros Hl. unfold update_sample. frame. Qed.

Lemma pb_train_stage n dfs ti tp ptp num i :
  (n <= ptp)%nat -> preserves_below n (train_stage average_points dfs ti tp ptp num i).
Proof.
  intros Hl. unfold train_stage.
  pose proof (fun j => pb_sample_row n dfs ti tp ptp i j Hl).
  pose proof (fun m k => pb_update_sample n dfs ti ptp m i k Hl).
  frame.
Qed.

(** Training leaves every cell that existed before the call as it was. *)
Lemma cascaded_regression_frame num dfs ti tp h r h' :
  cascaded_regression average_points num dfs ti tp h = (r, h') ->
  (length h <= length h')%nat /\ forall l, (l < length h)%nat -> h' !! l = h !! l.
Proof.
  unfold cascaded_regression.
  intros [(N & h1 & HN & Hk)|(e & He & ->)]%bind_inv.
  - destruct (pb_py_len (length h) ti h _ _ (le_n _) HN) as [Hlen1 Hsame1].
    apply bind_inv in Hk as [(ptp & h2 & Hal & Hk)|(e & Hal & ->)].
    + injection Hal as <- <-.
      assert (Hpb := pb_mapM (length h) (train_stage average_points dfs ti tp (length h1) N)
                       (seq 0 num) (fun i => pb_train_stage (length h) _ _ _ _ _ i Hlen1)).
      apply Hpb in Hk as [Hlen2 Hsame2]; [|rewrite length_app; lia].
      rewrite length_app in Hlen2. split; [lia|].
      intros l Hl. rewrite Hsame2, lookup_app_l, Hsame1; auto; lia.
    + discriminate.
  - eapply pb_py_len; eauto.
Qed.

Lemma pb_predict_step n regs dfs img l i :
  preserves_below n (predict_step regs dfs img l i).
Proof. unfold predict_step. frame. Qed.

Lemma pb_predict_image n regs dfs img :
  preserves_below n (predict_image average_points regs dfs img).
Proof.
  unfold predict_image. pose proof (pb_predict_step n regs dfs img). frame.
Qed.

Lemma pb_regression_predict n images regs dfs :
  preserves_below n (regression_predict average_points images regs dfs).
Proof.
  unfold regression_predict. pose proof (pb_predict_image n regs dfs). frame.
Qed.

(** Prediction leaves every cell that existed before the call as it was. *)
Lemma regression_predict_frame images regs dfs h r h' :
  regression_predict average_points images regs dfs h = (r, h') ->
  (length h <= length h')%nat /\ forall l, (l < length h)%nat -> h' !! l = h !! l.
Proof. apply pb_regression_predict. lia. Qed.

End CascadeFrame.

Lemma lookup_snoc {A} (h : list A) (o : A) : (h ++ [o]) !! length h = Some o.
Proof. by apply list_lookup_middle. Qed.

(** * What prediction computes

    The value a run of the predictor produces is a function of the
    contents of the cells it reads. *)

Section PredictValue.
Context {DB : DescriptorBackend} {RG : Regression}.
Variable average_points : loc.

Lemma predict_step_eq regs dfs img l i h p :
  h !! l = Some (NdPoints p) ->
  predict_step regs dfs img l i h =
  match step_value regs dfs img p i with
  | Ok new => (Ok (length h), h ++ [NdPoints new])
  | Raise e => (Raise e, h)
  end.
Proof.
  intros Hl. unfold predict_step, step_value.
  destruct (py_getitem regs i) as [regressor|e]; simpl; [|reflexivity].
  unfold bind at 1, lift at 1.
  rewrite (bind_Ok _ _ _ _ _ (load_points_eq _ _ _ Hl)).
  destruct (descriptors_flatten _) as [x|e]; simpl; [|reflexivity].
  unfold bind at 1, lift at 1.
  destruct (predict regressor [x]) as [y|e]; simpl; [|reflexivity].
  unfold bind at 1, lift at 1.
  destruct (reshape2 (concat y)) as [delta|e]; simpl; [|reflexivity].
  unfold bind at 1, lift at 1.
  destruct (py_getitem dfs i) as [d|e]; simpl; [|reflexivity].
  unfold bind at 1, lift at 1.
  destruct (np_add p (np_scale d delta)) as [new|e]; simpl; reflexivity.
Qed.

Lemma foldM_predict_step_spec regs dfs img stages l h p r h' :
  h !! l = Some (NdPoints p) ->
  foldM (predict_step regs dfs img) stages l h = (r, h') ->
  match r with
  | Ok l' => exists s, fold_value regs dfs img stages p = Ok s /\
                       h' !! l' = Some (NdPoints s)
  | Raise e => fold_value regs dfs img stages p = Raise e
  end.
Proof.
  revert l h p. induction stages as [|i stages IH]; intros l h p Hl; simpl.
  - intros [-> ->]%ret_inv. eauto.
  - unfold bind. rewrite (predict_step_eq _ _ _ _ _ _ _ Hl).
    destruct (step_value regs dfs img p i) as [new|e]; simpl.
    + apply IH. apply lookup_snoc.
    + intros [= <- <-]. reflexivity.
Qed.

Lemma predict_image_spec regs dfs img h prior r h' :
  h !! average_points = Some (NdPoints prior) ->
  predict_image average_points regs dfs img h = (r, h') ->
  match r with
  | Ok l => exists s, predict_image_value prior regs dfs img = Ok s /\
                      h' !! l = Some (NdPoints s)
  | Raise e => predict_image_value prior regs dfs img = Raise e
  end.
Proof.
  intros Hp. unfold predict_image, np_copy.
  rewrite bind_assoc, (bind_Ok _ _ _ _ _ (load_points_eq _ _ _ Hp)).
  unfold bind at 1, alloc at 1.
  apply foldM_predict_step_spec, lookup_snoc.
Qed.

Lemma mapM_predict_image_spec regs dfs imgs h prior r h' :
  h !! average_points = Some (NdPoints prior) ->
  mapM (predict_image average_points regs dfs) imgs h = (r, h') ->
  match r with
  | Ok ls => exists ss, mapR (predict_image_value prior regs dfs) imgs = Ok ss /\
                        Forall2 (fun l s => h' !! l = Some (NdPoints s)) ls ss
  | Raise e => mapR (predict_image_value prior regs dfs) imgs = Raise e
  end.
Proof.
  revert h r. induction imgs as [|img imgs IH]; intros h r Hp; simpl.
  - intros [-> ->]%ret_inv. eauto.
  - intros [(l & h1 & Himg & Hk)|(e & Himg & ->)]%bind_inv.
    + pose proof (predict_image_spec _ _ _ _ _ _ _ Hp Himg) as (s & -> & Hl).
      simpl.
      assert (h1 !! average_points = Some (NdPoints prior)) as Hp1.
      { rewrite <- Hp. eapply (pb_predict_image average_points (length h)); eauto.
        by eapply lookup_lt_Some. }
      apply bind_inv in Hk as [(ls & h2 & Hrest & [-> ->]%ret_inv)|(e & Hrest & ->)].
      * pose proof (IH _ _ Hp1 Hrest) as (ss & -> & Hall). simpl.
        exists (s :: ss). split; [done|]. constructor; [|done].
        rewrite <- Hl.
        eapply (pb_mapM (length h1) _ imgs
                  (fun i => pb_predict_image average_points _ regs dfs i)); eauto.
        by eapply lookup_lt_Some.
      * by rewrite (IH _ _ Hp1 Hrest).
    + by rewrite (predict_image_spec _ _ _ _ _ _ _ Hp Himg).
Qed.

Lemma mapM_load_points_eq ls ss (h : heap) :
  Forall2 (fun l s => h !! l = Some (NdPoints s)) ls ss ->
  mapM load_points ls h = (Ok ss, h).
Proof.
  induction 1 as [|l s ls ss Hl _ IH]; simpl; [done|].
  rewrite (bind_Ok _ _ _ _ _ (load_points_eq _ _ _ Hl)).
  by rewrite (bind_Ok _ _ _ _ _ IH).
Qed.

Lemma regression_predict_spec images regs dfs h prior imgs r h' :
  h !! average_points = Some (NdPoints prior) ->
  h !! images = Some (NdImages imgs) ->
  regression_predict average_points images regs dfs h = (r, h') ->
  match r with
  | Ok l => exists ss, regression_predict_value prior imgs regs dfs = Ok ss /\
                       h' !! l = Some (NdPointsArr ss)
  | Raise e => regression_predict_value prior imgs regs dfs = Raise e
  end.
Proof.
  intros Hp Hi. unfold regression_predict, regression_predict_value.
  rewrite (bind_Ok _ _ _ _ _ (load_images_eq _ _ _ Hi)).
  intros [(ls & h1 & Hls & Hk)|(e & Hls & ->)]%bind_inv.
  - pose proof (mapM_predict_image_spec _ _ _ _ _ _ _ Hp Hls) as (ss & -> & Hall).
    simpl. rewrite (bind_Ok _ _ _ _ _ (mapM_load_points_eq _ _ _ Hall)) in Hk.
    unfold bind, lift in Hk. destruct (np_array ss) as [stacked|e].
    + injection Hk as <- <-. exists stacked. split; [done|apply lookup_snoc].
    + by injection Hk as <- <-.
  - by rewrite (mapM_predict_image_spec _ _ _ _ _ _ _ Hp Hls).
Qed.

End PredictValue.

(** * What training does to the working shapes *)

Lemma slot_holds_fun h ptp j p p' :
  slot_holds h ptp j p -> slot_holds h ptp j p' -> p = p'.
Proof. intros (items & c & H1 & H2 & H3) (items' & c' & H1' & H2' & H3'). congruence. Qed.

Lemma slot_holds_not_none h ptp j p : slot_holds h ptp j p -> slot_none h ptp j -> False.
Proof. intros (items & c & H1 & H2 & H3) (items' & H1' & H2'). congruence. Qed.

Lemma image_at_fun h ti j img img' : image_at h ti j img -> image_at h ti j img' -> img = img'.
Proof. intros (imgs & H1 & H2) (imgs' & H1' & H2'). congruence. Qed.

Lemma rebinds_lookup h ptp k o h' l :
  rebinds h ptp k o h' -> l <> ptp -> (l < length h)%nat -> h' !! l = h !! l.
Proof.
  intros (items & Hp & Hk & ->) Hne Hl.
  rewrite list_lookup_insert_ne by done. by apply lookup_app_l.
Qed.

Lemma rebinds_list h ptp k o h' :
  rebinds h ptp k o h' ->
  exists items, h !! ptp = Some (PyList items) /\ (k < length items)%nat /\
                h' !! ptp = Some (PyList (<[k := Some (length h)]> items)) /\
                h' !! length h = Some o.
Proof.
  intros (items & Hp & Hk & ->). exists items. split; [done|]. split; [done|].
  pose proof (lookup_lt_Some _ _ _ Hp) as Hlt. split.
  - apply list_lookup_insert_eq. rewrite length_app. lia.
  - rewrite list_lookup_insert_ne by lia. apply lookup_snoc.
Qed.

Lemma rebinds_slot_new h ptp k s h' :
  rebinds h ptp k (NdPoints s) h' -> slot_holds h' ptp k s.
Proof.
  intros (items & Hp & Hk & Hp' & Hnew)%rebinds_list.
  exists (<[k := Some (length h)]> items), (length h).
  split; [done|]. split; [|done]. by apply list_lookup_insert_eq.
Qed.

Lemma rebinds_slot_other h ptp k o h' j p :
  rebinds h ptp k o h' -> j <> k -> slot_holds h ptp j p -> slot_holds h' ptp j p.
Proof.
  intros Hre Hne (items & c & Hp & Hj & Hc).
  pose proof (rebinds_list _ _ _ _ _ Hre) as (items' & Hp' & Hk & Hp'' & _).
  assert (items' = items) as -> by congruence.
  exists (<[k := Some (length h)]> items), c. split; [done|]. split.
  - by rewrite list_lookup_insert_ne.
  - rewrite (rebinds_lookup _ _ _ _ _ c Hre); [done|congruence|by eapply lookup_lt_Some].
Qed.

Lemma rebinds_slot_none h ptp k o h' j :
  rebinds h ptp k o h' -> j <> k -> slot_none h ptp j -> slot_none h' ptp j.
Proof.
  intros Hre Hne (items & Hp & Hj).
  pose proof (rebinds_list _ _ _ _ _ Hre) as (items' & Hp' & Hk & Hp'' & _).
  assert (items' = items) as -> by congruence.
  exists (<[k := Some (length h)]> items). split; [done|]. by rewrite list_lookup_insert_ne.
Qed.

Lemma rebinds_image h ptp k o h' ti j img :
  rebinds h ptp k o h' -> image_at h ti j img -> image_at h' ti j img.
Proof.
  intros Hre (imgs & Hi & Hj). exists imgs. split; [|done].
  rewrite (rebinds_lookup _ _ _ _ _ ti Hre); [done| |by eapply lookup_lt_Some].
  destruct Hre as (items & Hp & _). congruence.
Qed.

Lemma rebinds_points h ptp k o h' tp j gt :
  rebinds h ptp k o h' -> points_at h tp j gt -> points_at h' tp j gt.
Proof.
  intros Hre (gts & Hi & Hj). exists gts. split; [|done].
  rewrite (rebinds_lookup _ _ _ _ _ tp Hre); [done| |by eapply lookup_lt_Some].
  destruct Hre as (items & Hp & _). congruence.
Qed.

Lemma rebinds_prior h ptp k o h' a s :
  rebinds h ptp k o h' -> h !! a = Some (NdPoints s) -> h' !! a = Some (NdPoints s).
Proof.
  intros Hre Ha.
  rewrite (rebinds_lookup _ _ _ _ _ a Hre); [done| |by eapply lookup_lt_Some].
  destruct Hre as (items & Hp & _). congruence.
Qed.

(** ** Steps on list slots *)

Lemma list_getitem_inv lst j h r h' :
  list_getitem lst j h = (r, h') ->
  h' = h /\ forall v, r = Ok v ->
            exists items, h !! lst = Some (PyList items) /\ items !! j = Some v.
Proof.
  unfold list_getitem.
  intros [(items & h1 & [-> Hl]%load_list_inv & [-> ->]%lift_inv)
         |(e & [-> _]%load_list_inv & ->)]%bind_inv; [|done].
  split; [done|]. intros v Hv%py_getitem_Ok. eauto.
Qed.

Lemma getitem_array_inv lst j h r h' :
  getitem_array lst j h = (r, h') ->
  h' = h /\ forall p, r = Ok p -> slot_holds h lst j p.
Proof.
  unfold getitem_array.
  intros [(v & h1 & [-> Hv]%list_getitem_inv & Hk)|(e & [-> _]%list_getitem_inv & ->)]%bind_inv;
    [|done].
  destruct (Hv v eq_refl) as (items & Hl & Hj). destruct v as [c|].
  - apply load_points_inv in Hk as [-> Hc]. split; [done|].
    intros p ->. exists items, c. auto.
  - by apply lift_inv in Hk as [-> ->].
Qed.

Lemma getitem_array_eq lst j h p :
  slot_holds h lst j p -> getitem_array lst j h = (Ok p, h).
Proof.
  intros (items & c & Hl & Hj & Hc). unfold getitem_array, list_getitem.
  rewrite bind_assoc, (bind_Ok _ _ _ _ _ (load_list_eq _ _ _ Hl)).
  unfold bind at 1, lift, py_getitem. rewrite Hj. by apply load_points_eq.
Qed.

Lemma getitem_image_inv ti j h r h' :
  getitem_image ti j h = (r, h') ->
  h' = h /\ forall img, r = Ok img -> image_at h ti j img.
Proof.
  unfold getitem_image.
  intros [(imgs & h1 & [-> Hl]%load_images_inv & [-> ->]%lift_inv)
         |(e & [-> _]%load_images_inv & ->)]%bind_inv; [|done].
  split; [done|]. intros v Hv%py_getitem_Ok. exists imgs. auto.
Qed.

Lemma getitem_image_eq ti j h img :
  image_at h ti j img -> getitem_image ti j h = (Ok img, h).
Proof.
  intros (imgs & Hl & Hj). unfold getitem_image.
  rewrite (bind_Ok _ _ _ _ _ (load_images_eq _ _ _ Hl)).
  unfold lift, py_getitem. by rewrite Hj.
Qed.

Lemma getitem_points_inv tp j h r h' :
  getitem_points tp j h = (r, h') ->
  h' = h /\ forall gt, r = Ok gt -> points_at h tp j gt.
Proof.
  unfold getitem_points.
  intros [(gts & h1 & [-> Hl]%load_points_arr_inv & [-> ->]%lift_inv)
         |(e & [-> _]%load_points_arr_inv & ->)]%bind_inv; [|done].
  split; [done|]. intros v Hv%py_getitem_Ok. exists gts. auto.
Qed.

Lemma list_setitem_eq lst j v h items :
  h !! lst = Some (PyList items) -> (j < length items)%nat ->
  list_setitem lst j v h = (Ok tt, <[lst := PyList (<[j := v]> items)]> h).
Proof.
  intros Hl Hj. unfold list_setitem.
  rewrite (bind_Ok _ _ _ _ _ (load_list_eq _ _ _ Hl)).
  rewrite decide_True by done. unfold store.
  rewrite decide_True; [done|by eapply lookup_lt_Some].
Qed.

Lemma list_setitem_inv lst j v h r h' :
  list_setitem lst j v h = (r, h') ->
  (exists items, r = Ok tt /\ h !! lst = Some (PyList items) /\ (j < length items)%nat /\
                 h' = <[lst := PyList (<[j := v]> items)]> h) \/
  (exists e, r = Raise e /\ h' = h).
Proof.
  unfold list_setitem.
  intros [(items & h1 & [-> Hl]%load_list_inv & Hk)|(e & [-> _]%load_list_inv & ->)]%bind_inv;
    [|eauto].
  specialize (Hl _ eq_refl). case_decide.
  - left. exists items. unfold store in Hk.
    rewrite decide_True in Hk by (by eapply lookup_lt_Some). by injection Hk as <- <-.
  - right. apply lift_inv in Hk as [-> ->]. eauto.
Qed.

(** ** Steps of the trainer *)

Lemma bind_ext_at {A B} (m : M A) (k k' : A -> M B) h :
  (forall a h1, m h = (Ok a, h1) -> k a h1 = k' a h1) -> bind m k h = bind m k' h.
Proof. intros Hk. unfold bind. destruct (m h) as [[a|e] h1]; auto. Qed.

Lemma bind_lift_rbind {A B C} (r : result A) (f : A -> result B) (k : B -> M C) h :
  bind (lift (rbind r f)) k h = bind (lift r) (fun a => bind (lift (f a)) k) h.
Proof. destruct r; reflexivity. Qed.

Lemma lookup_map {A B} (f : A -> B) (l : list A) (i : nat) :
  map f l !! i = f <$> (l !! i).
Proof. revert i. induction l as [|a l IH]; intros [|i]; simpl; auto. Qed.

Lemma mapM_ext {A B} (f g : A -> M B) l h :
  (forall a h1, f a h1 = g a h1) -> mapM f l h = mapM g l h.
Proof.
  intros Hfg. revert h. induction l as [|a l IH]; intros h; simpl; [done|].
  rewrite (bind_cong _ _ _ _ (Hfg a h)). apply bind_ext. intros b h1.
  rewrite (bind_cong _ _ _ _ (IH h1)). done.
Qed.

Section TrainSteps.
Context {DB : DescriptorBackend} {RG : Regression}.
Variable average_points : loc.

Lemma rebind_slot_inv ptp k r h p res h' :
  slot_holds h ptp k p ->
  rebind_slot ptp k r h = (res, h') ->
  (exists new, r = Ok new /\ res = Ok tt /\ rebinds h ptp k (NdPoints new) h') \/
  (exists e, r = Raise e /\ res = Raise e /\ h' = h).
Proof.
  intros (items & c & Hl & Hk & Hc). unfold rebind_slot. intros Hrun.
  destruct r as [new|e]; [left|right].
  - unfold bind at 1, lift at 1, bind at 1, alloc at 1 in Hrun.
    pose proof (lookup_lt_Some _ _ _ Hk) as Hlt.
    erewrite list_setitem_eq in Hrun;
      [|by rewrite lookup_app_l by (by eapply lookup_lt_Some)|done].
    injection Hrun as <- <-. exists new. split; [done|]. split; [done|].
    exists items. auto.
  - injection Hrun as <- <-. eauto.
Qed.

Lemma update_sample_eq dfs ti ptp model i k h img p :
  image_at h ti k img -> slot_holds h ptp k p ->
  update_sample dfs ti ptp model i k h =
  rebind_slot ptp k (let? x := descriptors_flatten (compute_descriptors img p) in
                     apply_regressor model dfs x p i) h.
Proof.
  intros Hi Hp. unfold update_sample, rebind_slot, apply_regressor.
  rewrite (bind_Ok _ _ _ _ _ (getitem_image_eq _ _ _ _ Hi)).
  rewrite (bind_Ok _ _ _ _ _ (getitem_array_eq _ _ _ _ Hp)).
  destruct (descriptors_flatten _) as [x|e]; simpl; [|reflexivity].
  unfold bind at 1 6, lift at 1 6.
  destruct (predict model [x]) as [y|e]; simpl; [|reflexivity].
  unfold bind at 1, lift at 1.
  destruct (reshape2 (concat y)) as [delta|e]; simpl; [|reflexivity].
  unfold bind at 1, lift at 1.
  destruct (py_getitem dfs i) as [d|e]; simpl; reflexivity.
Qed.

Lemma update_sample_same_x_eq dfs ptp model x_train i k h x p :
  x_train !! k = Some x -> slot_holds h ptp k p ->
  update_sample_same_x dfs ptp model x_train i k h =
  rebind_slot ptp k (apply_regressor model dfs x p i) h.
Proof.
  intros Hx Hp. unfold update_sample_same_x, rebind_slot, apply_regressor.
  apply py_getitem_Ok in Hx. rewrite Hx.
  unfold bind at 1, lift at 1.
  rewrite (bind_Ok _ _ _ _ _ (getitem_array_eq _ _ _ _ Hp)).
  rewrite bind_lift_rbind. apply bind_ext. intros y h1.
  rewrite bind_lift_rbind. apply bind_ext. intros delta h2.
  rewrite bind_lift_rbind. apply bind_ext. intros d h3. reflexivity.
Qed.


Lemma np_copy_inv a h r h' :
  np_copy a h = (r, h') ->
  (exists s, h !! a = Some (NdPoints s) /\ r = Ok (length h) /\ h' = h ++ [NdPoints s]) \/
  (exists e, r = Raise e /\ h' = h).
Proof.
  unfold np_copy.
  intros [(s & h1 & [-> Hs]%load_points_inv & Hk)|(e & [-> _]%load_points_inv & ->)]%bind_inv;
    [left|right; eauto].
  injection Hk as <- <-. eauto.
Qed.

(** The first time a sample is seen its slot is rebound to a new array
    with the prior's contents; afterwards nothing happens. *)
Lemma init_prediction_inv ptp j h h' :
  init_prediction average_points ptp j h = (Ok tt, h') ->
  (h' = h /\ ~ slot_none h ptp j) \/
  exists prior, h !! average_points = Some (NdPoints prior) /\
                slot_none h ptp j /\ rebinds h ptp j (NdPoints prior) h'.
Proof.
  unfold init_prediction.
  intros (cur & h1 & [-> Hcur]%list_getitem_inv & Hk)%bind_inv_Ok.
  destruct (Hcur _ eq_refl) as (items & Hl & Hj). destruct cur as [c|].
  - left. apply ret_inv in Hk as [_ ->]. split; [done|].
    intros (items' & Hl' & Hj'). congruence.
  - right. apply bind_inv_Ok in Hk as (c & h1 & Hcopy & Hset).
    apply np_copy_inv in Hcopy as [(s & Ha & [= ->] & ->)|(e & [=] & _)].
    exists s. split; [done|]. split; [by exists items|].
    pose proof (lookup_lt_Some _ _ _ Hj) as Hlt.
    rewrite (list_setitem_eq _ _ _ _ items) in Hset;
      [|by rewrite lookup_app_l by (by eapply lookup_lt_Some)|done].
    injection Hset as <-. by exists items.
Qed.

Lemma row_ready_rebinds dfs ti tp ptp i h j row k o h' :
  rebinds h ptp k o h' -> j <> k ->
  row_ready dfs ti tp ptp i h j row -> row_ready dfs ti tp ptp i h' j row.
Proof.
  intros Hre Hne (img & p & gt & diff & d & Hi & Hp & Hg & Hx & Hd & Hdf & Hy).
  exists img, p, gt, diff, d.
  repeat split; eauto using rebinds_image, rebinds_slot_other, rebinds_points.
Qed.

Lemma sample_row_inv dfs ti tp ptp i j h row h' :
  sample_row average_points dfs ti tp ptp i j h = (Ok row, h') ->
  row_ready dfs ti tp ptp i h' j row /\
  (h' = h \/
   exists prior, h !! average_points = Some (NdPoints prior) /\
                 slot_none h ptp j /\ rebinds h ptp j (NdPoints prior) h').
Proof.
  unfold sample_row.
  intros (img & h1 & [-> Himg]%getitem_image_inv & Hk)%bind_inv_Ok.
  apply bind_inv_Ok in Hk as ([] & h1 & Hinit & Hk).
  apply bind_inv_Ok in Hk as (p & h2 & [-> Hp]%getitem_array_inv & Hk).
  apply bind_inv_Ok in Hk as (gt & h2 & [-> Hgt]%getitem_points_inv & Hk).
  apply bind_inv_Ok in Hk as (diff & h2 & [Hdiff ->]%lift_inv & Hk).
  apply bind_inv_Ok in Hk as (x & h2 & [Hx ->]%lift_inv & Hk).
  apply bind_inv_Ok in Hk as (d & h2 & [Hd ->]%lift_inv & [[= ->] ->]%ret_inv).
  specialize (Himg _ eq_refl). specialize (Hp _ eq_refl). specialize (Hgt _ eq_refl).
  apply init_prediction_inv in Hinit. split; [|destruct Hinit as [[-> _]|Hinit]; auto].
  exists img, p, gt, diff, d. simpl. symmetry in Hd. apply py_getitem_Ok in Hd.
  repeat split; try done.
  destruct Hinit as [[-> _]|(prior & _ & _ & Hre)]; [done|by eapply rebinds_image].
Qed.

(** A loop whose successful steps either leave the heap alone or rebind
    one of the slots in [ks] keeps whatever those rebindings keep. *)
Lemma mapM_rebinds_effect {B} (f : nat -> M B) ptp ks h bs h' (P : heap -> Prop) :
  (forall k h1 b h2, f k h1 = (Ok b, h2) ->
     h2 = h1 \/ exists o, rebinds h1 ptp k o h2) ->
  (forall k o h1 h2, k ∈ ks -> rebinds h1 ptp k o h2 -> P h1 -> P h2) ->
  mapM f ks h = (Ok bs, h') -> P h -> P h'.
Proof.
  intros Hf. revert h bs. induction ks as [|k ks IH]; intros h bs HP; simpl.
  - by intros [_ ->]%ret_inv.
  - intros (b & h1 & Hstep & (bs' & h2 & Hrest & [_ ->]%ret_inv)%bind_inv_Ok)%bind_inv_Ok Hh.
    eapply IH; [|done|].
    + intros k' o ha hb Hin. apply HP. by right.
    + destruct (Hf _ _ _ _ Hstep) as [->|(o & Hre)]; [done|].
      eapply HP; [|done..]. by left.
Qed.

Lemma sample_row_effect dfs ti tp ptp i j h row h' :
  sample_row average_points dfs ti tp ptp i j h = (Ok row, h') ->
  h' = h \/ exists o, rebinds h ptp j o h'.
Proof.
  intros [_ [->|(prior & _ & _ & Hre)]]%sample_row_inv; eauto.
Qed.

Lemma update_sample_inv dfs ti ptp model i k h h' :
  update_sample dfs ti ptp model i k h = (Ok tt, h') ->
  exists img p new,
    image_at h ti k img /\ slot_holds h ptp k p /\
    (let? x := descriptors_flatten (compute_descriptors img p) in
     apply_regressor model dfs x p i) = Ok new /\
    rebinds h ptp k (NdPoints new) h'.
Proof.
  intros Hrun.
  assert (exists img p, image_at h ti k img /\ slot_holds h ptp k p) as (img & p & Hi & Hp).
  { unfold update_sample in Hrun.
    apply bind_inv_Ok in Hrun as (img & h1 & [-> Himg]%getitem_image_inv & Hk).
    apply bind_inv_Ok in Hk as (p & h2 & [-> Hp]%getitem_array_inv & Hk). exists img, p. auto. }
  rewrite (update_sample_eq _ _ _ _ _ _ _ _ _ Hi Hp) in Hrun.
  apply (rebind_slot_inv _ _ _ _ _ _ _ Hp) in Hrun
    as [(new & Hnew & _ & Hre)|(e & _ & [=] & _)].
  exists img, p, new. auto.
Qed.

Lemma update_sample_effect dfs ti ptp model i k h u h' :
  update_sample dfs ti ptp model i k h = (Ok u, h') ->
  h' = h \/ exists o, rebinds h ptp k o h'.
Proof.
  destruct u. intros (img & p & new & _ & _ & _ & Hre)%update_sample_inv. eauto.
Qed.


(** ** Loops of the trainer *)

Lemma first_loop_ready dfs ti tp ptp i js h rows h' :
  NoDup js ->
  mapM (sample_row average_points dfs ti tp ptp i) js h = (Ok rows, h') ->
  Forall2 (row_ready dfs ti tp ptp i h') js rows.
Proof.
  intros Hnd. revert h rows. induction js as [|j js IH]; intros h rows; simpl.
  - intros [[= ->] _]%ret_inv. constructor.
  - intros (row & h1 & Hstep &
            (rows' & h2 & Hrest & [[= ->] ->]%ret_inv)%bind_inv_Ok)%bind_inv_Ok.
    apply NoDup_cons in Hnd as [Hnotin Hnd].
    constructor; [|eauto].
    apply sample_row_inv in Hstep as [Hready _].
    eapply (mapM_rebinds_effect _ ptp js h1 rows' _
              (fun hh => row_ready dfs ti tp ptp i hh j row)); [| |exact Hrest|exact Hready].
    + intros k ha b hb. apply sample_row_effect.
    + intros k o ha hb Hin Hre. eapply row_ready_rebinds; [done|]. by intros ->.
Qed.


Lemma update_loop_spec dfs ti ptp model i ks h us h' :
  NoDup ks ->
  mapM (update_sample dfs ti ptp model i) ks h = (Ok us, h') ->
  forall k img p, k ∈ ks -> image_at h ti k img -> slot_holds h ptp k p ->
    exists new,
      (let? x := descriptors_flatten (compute_descriptors img p) in
       apply_regressor model dfs x p i) = Ok new /\
      slot_holds h' ptp k new.
Proof.
  intros Hnd. revert h us. induction ks as [|k0 ks IH]; intros h us; simpl.
  - intros _ k img p Hk. by apply elem_of_nil in Hk.
  - intros ([] & h1 & Hstep &
            (us' & h2 & Hrest & [[= ->] ->]%ret_inv)%bind_inv_Ok)%bind_inv_Ok.
    apply NoDup_cons in Hnd as [Hnotin Hnd].
    apply update_sample_inv in Hstep as (img0 & p0 & new0 & Hi0 & Hp0 & Hnew0 & Hre).
    intros k img p [->|Hk]%elem_of_cons Hi Hp.
    + rewrite (image_at_fun _ _ _ _ _ Hi Hi0), (slot_holds_fun _ _ _ _ _ Hp Hp0).
      exists new0. split; [done|].
      eapply (mapM_rebinds_effect _ ptp ks h1 us' _
                (fun hh => slot_holds hh ptp k0 new0)); [| |exact Hrest|].
      * intros k ha b hb. apply update_sample_effect.
      * intros k o ha hb Hin Hre'. eapply rebinds_slot_other; [done|]. by intros ->.
      * by eapply rebinds_slot_new.
    + eapply (IH Hnd h1 us' Hrest); [done|by eapply rebinds_image|].
      eapply rebinds_slot_other; [done| |done]. by intros ->.
Qed.

(** Re-extracting the descriptors in the update loop yields the rows the
    regressor was fitted on. *)
Lemma update_loops_agree dfs ti ptp model x_train i ks h :
  NoDup ks ->
  (forall k, k ∈ ks ->
     exists img p x, image_at h ti k img /\ slot_holds h ptp k p /\
                     descriptors_flatten (compute_descriptors img p) = Ok x /\
                     x_train !! k = Some x) ->
  mapM (update_sample dfs ti ptp model i) ks h =
  mapM (update_sample_same_x dfs ptp model x_train i) ks h.
Proof.
  intros Hnd. revert h. induction ks as [|k ks IH]; intros h Hall; simpl; [done|].
  apply NoDup_cons in Hnd as [Hnotin Hnd].
  destruct (Hall k) as (img & p & x & Hi & Hp & Hx & Hxt); [by left|].
  rewrite (bind_cong _ _ _ _ (update_sample_eq _ _ _ _ _ _ _ _ _ Hi Hp)).
  rewrite (bind_cong _ _ _ _ (update_sample_same_x_eq _ _ _ _ _ _ _ _ _ Hxt Hp)).
  rewrite Hx. simpl. apply bind_ext_at. intros u h1 Hstep.
  apply bind_cong. apply IH; [done|].
  apply (rebind_slot_inv _ _ _ _ _ _ _ Hp) in Hstep
    as [(new & _ & _ & Hre)|(e & _ & [=] & _)].
  intros k' Hk'. destruct (Hall k') as (img' & p' & x' & Hi' & Hp' & Hx' & Hxt'); [by right|].
  exists img', p', x'. split; [by eapply rebinds_image|]. split; [|done].
  eapply rebinds_slot_other; [done| |done]. by intros ->.
Qed.

Lemma train_stage_same_x_eq dfs ti tp ptp num i h :
  train_stage average_points dfs ti tp ptp num i h =
  train_stage_same_x average_points dfs ti tp ptp num i h.
Proof.
  unfold train_stage, train_stage_same_x.
  apply bind_ext_at. intros rows h1 Hrows.
  apply bind_ext_at. intros x_train h2 [Hx ->]%lift_inv.
  apply bind_ext_at. intros y_train h2 [_ ->]%lift_inv.
  apply bind_ext_at. intros model h2 [_ ->]%lift_inv.
  apply bind_cong.
  unfold np_array in Hx. destruct (regular (map fst rows)); [|done].
  injection Hx as ->.
  pose proof (first_loop_ready _ _ _ _ _ _ _ _ _ (NoDup_seq 0 num) Hrows) as Hready.
  apply update_loops_agree; [apply NoDup_seq|].
  intros k [_ Hk]%elem_of_seq.
  destruct (Forall2_lookup_l _ _ _ k k Hready) as (row & Hrow & Hk');
    [by apply lookup_seq_lt|].
  destruct Hk' as (img & p & gt & diff & d & Hi & Hp & _ & Hx & _).
  exists img, p, row.1. repeat split; try done.
  by rewrite lookup_map, Hrow.
Qed.

Lemma cascaded_regression_same_x_eq num dfs ti tp h :
  cascaded_regression average_points num dfs ti tp h =
  cascaded_regression_same_x average_points num dfs ti tp h.
Proof.
  unfold cascaded_regression, cascaded_regression_same_x.
  apply bind_ext. intros N h1. apply bind_ext. intros ptp h2.
  apply mapM_ext. intros i h3. apply train_stage_same_x_eq.
Qed.

End TrainSteps.

(** ** Array identities *)

Lemma reshape2_flatten (s : Shape) : reshape2 (flatten s) = Ok s.
Proof.
  induction s as [|[x y] s IH]; [done|].
  unfold flatten in *. simpl. by rewrite IH.
Qed.



Section SingleStage.
Context {DB : DescriptorBackend} {RG : Regression}.
Variable average_points : loc.


Lemma train_stage_inv dfs ti tp ptp num i h model h' :
  train_stage average_points dfs ti tp ptp num i h = (Ok model, h') ->
  exists rows h1 us,
    mapM (sample_row average_points dfs ti tp ptp i) (seq 0 num) h = (Ok rows, h1) /\
    np_array (map fst rows) = Ok (map fst rows) /\
    np_array (map snd rows) = Ok (map snd rows) /\
    fit (map fst rows) (map snd rows) = Ok model /\
    mapM (update_sample dfs ti ptp model i) (seq 0 num) h1 = (Ok us, h').
Proof.
  unfold train_stage.
  intros (rows & h1 & Hrows & Hk)%bind_inv_Ok.
  apply bind_inv_Ok in Hk as (x_train & h2 & [Hx ->]%lift_inv & Hk).
  apply bind_inv_Ok in Hk as (y_train & h2 & [Hy ->]%lift_inv & Hk).
  apply bind_inv_Ok in Hk as (model' & h2 & [Hm ->]%lift_inv & Hk).
  apply bind_inv_Ok in Hk as (us & h2 & Hus & [[= ->] ->]%ret_inv).
  assert (x_train = map fst rows) as ->.
  { unfold np_array in Hx. destruct (regular (map fst rows)); congruence. }
  assert (y_train = map snd rows) as ->.
  { unfold np_array in Hy. destruct (regular (map snd rows)); congruence. }
  exists rows, h1, us. auto.
Qed.



End SingleStage.

(** ** The mean along the first axis *)

Lemma np_sum_axis0_cons (s : Shape) (rest : list Shape) :
  rest <> [] ->
  np_sum_axis0 (s :: rest) = zip_with (pt_op Qcplus) s (np_sum_axis0 rest).
Proof. by destruct rest. Qed.

Lemma np_sum_axis0_length (ss : list Shape) K :
  ss <> [] -> Forall (fun s : Shape => length s = K) ss ->
  length (np_sum_axis0 ss) = K.
Proof.
  intros Hne Hall. induction Hall as [|s rest Hs Hrest IH]; [done|].
  destruct rest as [|s' rest']; [done|].
  rewrite np_sum_axis0_cons by done.
  rewrite length_zip_with_l_eq; [done|]. rewrite IH; done.
Qed.

Lemma np_sum_axis0_lookup (ss : list Shape) K k :
  ss <> [] -> Forall (fun s : Shape => length s = K) ss -> (k < K)%nat ->
  np_sum_axis0 ss !! k =
  Some (Qc_sum (map (fun s => (landmark s k).1) ss),
        Qc_sum (map (fun s => (landmark s k).2) ss)).
Proof.
  intros Hne Hall Hk. induction Hall as [|s rest Hs Hrest IH]; [done|].
  destruct (lookup_lt_is_Some_2 s k) as [p Hp]; [lia|].
  assert (landmark s k = p) as Hlm by (by apply nth_lookup_Some).
  destruct rest as [|s' rest'].
  - simpl. rewrite Hp, Hlm, !Qcplus_0_r. by destruct p.
  - rewrite np_sum_axis0_cons by done.
    rewrite lookup_zip_with, Hp, IH by done.
    simpl. by rewrite Hlm.
Qed.

(** * Properties of the cascade *)

Lemma regular_replicate {A} n (r : list A) : regular (replicate n r) = true.
Proof.
  destruct n as [|n]; simpl; [done|].
  induction n as [|n IH]; simpl; [done|]. by rewrite Nat.eqb_refl.
Qed.

Lemma mapR_const {A B} (b : B) (l : list A) :
  mapR (fun _ => Ok b) l = Ok (replicate (length l) b).
Proof. induction l as [|a l IH]; simpl; [done|]. by rewrite IH. Qed.

Section Properties.
Context {DB : DescriptorBackend} {RG : Regression}.
Variable average_points : loc.

(** C9.  The prior is never written.  A training run and a prediction run,
    whether they return or raise, leave the array behind [average_points]
    with the contents it had; and the array a sample starts from at stage 0
    is a cell that did not exist before, different from the prior's cell
    and holding the prior's contents. *)
Theorem shape_prior_never_mutated (h : heap) (prior : Shape) :
  h !! average_points = Some (NdPoints prior) ->
  (forall num dfs ti tp r h',
     cascaded_regression average_points num dfs ti tp h = (r, h') ->
     h' !! average_points = Some (NdPoints prior)) /\
  (forall images regs dfs r h',
     regression_predict average_points images regs dfs h = (r, h') ->
     h' !! average_points = Some (NdPoints prior)) /\
  (forall ptp j h',
     slot_none h ptp j ->
     init_prediction average_points ptp j h = (Ok tt, h') ->
     exists items c,
       h' !! ptp = Some (PyList items) /\ items !! j = Some (Some c) /\
       c <> average_points /\ h !! c = None /\
       h' !! c = Some (NdPoints prior) /\
       h' !! average_points = Some (NdPoints prior)).
Proof.
  intros Ha. pose proof (lookup_lt_Some _ _ _ Ha) as Hlt.
  split; [|split].
  - intros num dfs ti tp r h' Hrun.
    apply cascaded_regression_frame in Hrun as [_ Hsame]. by rewrite Hsame.
  - intros images regs dfs r h' Hrun.
    apply regression_predict_frame in Hrun as [_ Hsame]. by rewrite Hsame.
  - intros ptp j h' Hnone Hinit.
    apply init_prediction_inv in Hinit as [[_ Hsome]|(prior' & Ha' & _ & Hre)]; [done|].
    assert (prior' = prior) as -> by congruence.
    pose proof (rebinds_list _ _ _ _ _ Hre) as (items & Hl & Hj & Hl' & Hnew).
    exists (<[j := Some (length h)]> items), (length h).
    split; [done|]. split; [by apply list_lookup_insert_eq|].
    split; [lia|]. split; [by apply lookup_ge_None_2|].
    split; [done|by eapply rebinds_prior].
Qed.

(** C10.  Training does not modify its inputs.  Whether the run returns
    or raises, the image array and the ground-truth array hold what they
    held before the call, and so does every other cell that existed then:
    the trainer writes only to cells it allocated itself. *)
Theorem training_leaves_inputs_unchanged num dfs ti tp (h : heap) imgs gts r h' :
  h !! ti = Some (NdImages imgs) ->
  h !! tp = Some (NdPointsArr gts) ->
  cascaded_regression average_points num dfs ti tp h = (r, h') ->
  h' !! ti = Some (NdImages imgs) /\
  h' !! tp = Some (NdPointsArr gts) /\
  forall l o, h !! l = Some o -> h' !! l = Some o.
Proof.
  intros Hti Htp Hrun. apply cascaded_regression_frame in Hrun as [_ Hsame].
  assert (forall l o, h !! l = Some o -> h' !! l = Some o) as Hall.
  { intros l o Hl. rewrite Hsame; [done|by eapply lookup_lt_Some]. }
  auto.
Qed.

(** C6.  With an empty list of regressors the predictor returns, for
    every image of the batch, the prior itself. *)
Theorem zero_stage_cascade_returns_prior images dfs (h : heap) prior imgs :
  h !! average_points = Some (NdPoints prior) ->
  h !! images = Some (NdImages imgs) ->
  exists l h',
    regression_predict average_points images [] dfs h = (Ok l, h') /\
    h' !! l = Some (NdPointsArr (replicate (length imgs) prior)).
Proof.
  intros Ha Hi.
  destruct (regression_predict average_points images [] dfs h) as [r h'] eqn:Hrun.
  pose proof (regression_predict_spec _ _ _ _ _ _ _ _ _ Ha Hi Hrun) as Hspec.
  unfold regression_predict_value, predict_image_value in Hspec. simpl in Hspec.
  rewrite mapR_const in Hspec. simpl in Hspec.
  unfold np_array in Hspec. rewrite regular_replicate in Hspec.
  destruct r as [l|e]; [|done].
  destruct Hspec as (ss & [= <-] & Hl). eauto.
Qed.

(** C5.  Prediction is deterministic.  Two calls in a row with the same
    images, regressors and damping factors have the same outcome: both
    raise the same exception, or both return an array with the same
    coordinates. *)
Theorem prediction_is_deterministic images regs dfs (h : heap) prior imgs r1 h1 r2 h2 :
  h !! average_points = Some (NdPoints prior) ->
  h !! images = Some (NdImages imgs) ->
  regression_predict average_points images regs dfs h = (r1, h1) ->
  regression_predict average_points images regs dfs h1 = (r2, h2) ->
  match r1, r2 with
  | Ok l1, Ok l2 =>
      exists ss, h1 !! l1 = Some (NdPointsArr ss) /\ h2 !! l2 = Some (NdPointsArr ss) /\
                 h2 !! l1 = Some (NdPointsArr ss)
  | Raise e1, Raise e2 => e1 = e2
  | _, _ => False
  end.
Proof.
  intros Ha Hi Hrun1 Hrun2.
  pose proof (regression_predict_frame _ _ _ _ _ _ _ Hrun1) as [_ Hsame1].
  pose proof (regression_predict_frame _ _ _ _ _ _ _ Hrun2) as [_ Hsame2].
  assert (h1 !! average_points = Some (NdPoints prior)) as Ha1.
  { rewrite Hsame1; [done|by eapply lookup_lt_Some]. }
  assert (h1 !! images = Some (NdImages imgs)) as Hi1.
  { rewrite Hsame1; [done|by eapply lookup_lt_Some]. }
  pose proof (regression_predict_spec _ _ _ _ _ _ _ _ _ Ha Hi Hrun1) as Hspec1.
  pose proof (regression_predict_spec _ _ _ _ _ _ _ _ _ Ha1 Hi1 Hrun2) as Hspec2.
  destruct r1 as [l1|e1], r2 as [l2|e2].
  - destruct Hspec1 as (ss & Hv & Hl1). destruct Hspec2 as (ss' & Hv' & Hl2).
    assert (ss' = ss) as -> by congruence.
    exists ss. split; [done|]. split; [done|].
    rewrite Hsame2; [done|by eapply lookup_lt_Some].
  - destruct Hspec1 as (ss & Hv & _). congruence.
  - destruct Hspec2 as (ss & Hv & _). congruence.
  - congruence.
Qed.

(** C3.  Within a stage the update loop works on the rows the regressor
    was fitted on.  The trainer, which extracts the descriptors a second
    time in the update loop, and the trainer that takes row [k] of the
    fitted batch instead, are the same computation: same result, same
    exception, same final heap, at every stage and for the whole run. *)
Theorem update_features_are_the_fitted_batch dfs ti tp :
  (forall ptp num i (h : heap),
     train_stage average_points dfs ti tp ptp num i h =
     train_stage_same_x average_points dfs ti tp ptp num i h) /\
  (forall num_regressors (h : heap),
     cascaded_regression average_points num_regressors dfs ti tp h =
     cascaded_regression_same_x average_points num_regressors dfs ti tp h).
Proof.
  split.
  - intros. apply train_stage_same_x_eq.
  - intros. apply cascaded_regression_same_x_eq.
Qed.

(** C4.  A failing fit aborts the whole run.  If stages [0 .. i-1] went
    through, the batch of stage [i] was built and the least-squares fit on
    it raises, then the trainer raises that exception: it returns no list
    of regressors, not even the ones fitted so far. *)
Theorem fit_failure_aborts_training num dfs ti tp (h0 : heap) imgs
    i regs hi rows hx x_train y_train e :
  (i < num)%nat ->
  h0 !! ti = Some (NdImages imgs) ->
  mapM (train_stage average_points dfs ti tp (length h0) (length imgs)) (seq 0 i)
       (h0 ++ [PyList (replicate (length imgs) None)]) = (Ok regs, hi) ->
  mapM (sample_row average_points dfs ti tp (length h0) i) (seq 0 (length imgs)) hi
    = (Ok rows, hx) ->
  np_array (map fst rows) = Ok x_train ->
  np_array (map snd rows) = Ok y_train ->
  fit x_train y_train = Raise e ->
  cascaded_regression average_points num dfs ti tp h0 = (Raise e, hx).
Proof.
  intros Hi Hti Hbefore Hrows Hx Hy Hfit.
  unfold cascaded_regression.
  assert (py_len ti h0 = (Ok (length imgs), h0)) as Hlen.
  { unfold py_len, bind, load. by rewrite Hti. }
  rewrite (bind_Ok _ _ _ _ _ Hlen).
  unfold bind at 1, alloc at 1.
  replace (seq 0 num) with (seq 0 i ++ i :: seq (S i) (num - S i)).
  2:{ change (i :: seq (S i) (num - S i)) with (seq i (S (num - S i))).
      rewrite <- seq_app. f_equal. lia. }
  rewrite mapM_app, (bind_Ok _ _ _ _ _ Hbefore). simpl.
  apply bind_Raise, bind_Raise.
  unfold train_stage.
  rewrite (bind_Ok _ _ _ _ _ Hrows), Hx, Hy.
  unfold bind at 1, lift at 1. unfold bind at 1, lift at 1.
  unfold bind at 1, lift at 1. by rewrite Hfit.
Qed.

(** C8.  With a backend that returns one row of [D] numbers per keypoint,
    the feature vector extracted at a shape of [K >= 1] landmarks has
    length [K * D]; two shapes with the same number of landmarks, on any
    two images, give vectors of the same length. *)
Theorem descriptor_vector_length D img (points : Shape) :
  descriptor_contract D -> points <> [] ->
  (exists x, descriptors_flatten (compute_descriptors img points) = Ok x /\
             length x = (length points * D)%nat) /\
  (forall img' (points' : Shape) x x',
     length points' = length points ->
     descriptors_flatten (compute_descriptors img points) = Ok x ->
     descriptors_flatten (compute_descriptors img' points') = Ok x' ->
     length x' = length x).
Proof.
  intros Hc Hne.
  assert (forall im (pts : Shape), pts <> [] ->
            exists x, descriptors_flatten (compute_descriptors im pts) = Ok x /\
                      length x = (length pts * D)%nat) as Hlen.
  { intros im pts Hpts. unfold compute_descriptors.
    destruct (Hc im (map (fun p : Point => mkKeyPoint p.1 p.2 (Q2Qc 10 * resize_scale)) pts))
      as (m & -> & Hrows & Hcols).
    { by destruct pts. }
    exists (concat m). split; [done|].
    rewrite length_map in Hrows. rewrite <- Hrows. clear Hrows.
    induction Hcols as [|r m Hr _ IH]; simpl; [done|].
    rewrite length_app, IH, Hr. done. }
  split; [by apply Hlen|].
  intros img' points' x x' Hk Hx Hx'.
  destruct (Hlen img points Hne) as (y & Hy & Hly).
  destruct (Hlen img' points') as (y' & Hy' & Hly').
  { intros ->. by destruct points. }
  assert (y = x) as -> by congruence. assert (y' = x') as -> by congruence.
  rewrite Hly, Hly', Hk. done.
Qed.


(** C2, as the code has it.  The prior is the coordinate-wise arithmetic
    mean of [train_points_resized], the whole resized training set the
    module loads, whatever shapes a later call of the trainer is given:
    its landmark [k] is [(1/n) * sum_i S_i[k]]; every training sample
    starts from a copy of it and so does every prediction. *)
Theorem shape_prior_is_mean_of_resized_training_set
    train_points_resized (h : heap) (ss : list Shape) K avg h1 :
  h !! train_points_resized = Some (NdPointsArr ss) ->
  ss <> [] -> Forall (fun s : Shape => length s = K) ss ->
  module_average_points train_points_resized h = (Ok avg, h1) ->
  exists prior,
    h1 !! avg = Some (NdPoints prior) /\
    length prior = K /\
    (forall k, (k < K)%nat ->
       prior !! k =
       Some (1 / Qc_of_nat (length ss) * Qc_sum (map (fun s => (landmark s k).1) ss),
             1 / Qc_of_nat (length ss) * Qc_sum (map (fun s => (landmark s k).2) ss))) /\
    (forall (h2 : heap) ptp j,
       h2 !! avg = Some (NdPoints prior) -> slot_none h2 ptp j ->
       exists h3, init_prediction avg ptp j h2 = (Ok tt, h3) /\
                  slot_holds h3 ptp j prior) /\
    (forall (h2 : heap) regs dfs img,
       h2 !! avg = Some (NdPoints prior) ->
       predict_image avg regs dfs img h2 =
       foldM (predict_step regs dfs img) (seq 0 (length regs)) (length h2)
             (h2 ++ [NdPoints prior])).
Proof.
  intros Hl Hne Hall. unfold module_average_points.
  rewrite (bind_Ok _ _ _ _ _ (load_points_arr_eq _ _ _ Hl)).
  intros [= <- <-]. exists (np_mean_axis0 ss).
  split; [apply lookup_snoc|].
  split; [unfold np_mean_axis0; by rewrite length_map, (np_sum_axis0_length ss K)|].
  split; [|split].
  - intros k Hk. unfold np_mean_axis0.
    rewrite lookup_map, (np_sum_axis0_lookup ss K k) by done. simpl.
    f_equal. f_equal; unfold Qcdiv; ring.
  - intros h2 ptp j Ha (items & Hp & Hj).
    pose proof (lookup_lt_Some _ _ _ Hj) as Hlt.
    unfold init_prediction, list_getitem.
    rewrite bind_assoc, (bind_Ok _ _ _ _ _ (load_list_eq _ _ _ Hp)).
    unfold bind at 1, lift at 1, py_getitem. rewrite Hj.
    unfold np_copy. rewrite bind_assoc, (bind_Ok _ _ _ _ _ (load_points_eq _ _ _ Ha)).
    unfold bind at 1, alloc at 1.
    erewrite list_setitem_eq;
      [|by rewrite lookup_app_l by (by eapply lookup_lt_Some)|done].
    eexists. split; [done|].
    apply (rebinds_slot_new h2). by exists items.
  - intros h2 regs dfs img Ha. unfold predict_image, np_copy.
    by rewrite bind_assoc, (bind_Ok _ _ _ _ _ (load_points_eq _ _ _ Ha)).
Qed.

End Properties.

(** C7.  Stage application does not commute: a two-stage cascade trained by
    [cascaded_regression] and an image on which the regressors in training
    order and in swapped order, each with its own damping factor, give
    different shapes. *)
Theorem stage_order_matters :
  exists (DB : DescriptorBackend) (RG : Regression)
         (average_points train_images train_points images : loc) (h0 : heap)
         (d1 d2 : Qc) (R1 R2 : Regressor) (h1 : heap)
         (l12 : loc) (h12 : heap) (l21 : loc) (h21 : heap) (s12 s21 : list Shape)
         (j : nat) (p12 p21 : Shape),
    cascaded_regression average_points 2 [d1; d2] train_images train_points h0
      = (Ok [R1; R2], h1) /\
    regression_predict average_points images [R1; R2] [d1; d2] h1 = (Ok l12, h12) /\
    regression_predict average_points images [R2; R1] [d2; d1] h1 = (Ok l21, h21) /\
    h12 !! l12 = Some (NdPointsArr s12) /\
    h21 !! l21 = Some (NdPointsArr s21) /\
    s12 !! j = Some p12 /\ s21 !! j = Some p21 /\ p12 <> p21.
Proof.
  exists Synthetic.backend, Synthetic.regression, Synthetic.average_points,
    Synthetic.train_images_preprocessed, Synthetic.train_points_resized,
    Synthetic.train_images_preprocessed, Synthetic.heap1, Synthetic.half, 1.
  exists (nth 0 Synthetic.regs2 []), (nth 1 Synthetic.regs2 []), Synthetic.train2.2.
  exists (length Synthetic.predict12.2 - 1)%nat, Synthetic.predict12.2.
  exists (length Synthetic.predict21.2 - 1)%nat, Synthetic.predict21.2.
  set (s12 := match last Synthetic.predict12.2 with
              | Some (NdPointsArr ss) => ss | _ => [] end).
  set (s21 := match last Synthetic.predict21.2 with
              | Some (NdPointsArr ss) => ss | _ => [] end).
  exists s12, s21, 0%nat, (nth 0 s12 []), (nth 0 s21 []).
  repeat split; by_evaluation.
Qed.

(** * Concrete runs *)

#[local] Existing Instance Synthetic.backend.
#[local] Existing Instance Synthetic.regression.

Lemma synthetic_backend_contract : descriptor_contract (DB := Synthetic.backend) 1.
Proof.
  intros img kps Hne. destruct kps as [|kp kps]; [done|].
  eexists. split; [reflexivity|]. split; [by rewrite length_map|].
  apply Forall_forall. intros r Hr. apply list_elem_of_In in Hr.
  apply in_map_iff in Hr as (kp' & <- & _). reflexivity.
Qed.



Lemma shape_prior_is_mean_of_resized_training_set_witness :
  Synthetic.heap0 !! Synthetic.train_points_resized
    = Some (NdPointsArr Synthetic.all_shapes) /\
  Synthetic.all_shapes <> [] /\
  Forall (fun s : Shape => length s = 1%nat) Synthetic.all_shapes /\
  module_average_points Synthetic.train_points_resized Synthetic.heap0
    = (Ok Synthetic.average_points, take 3 Synthetic.heap1) /\
  exists prior,
    take 3 Synthetic.heap1 !! Synthetic.average_points = Some (NdPoints prior) /\
    length prior = 1%nat /\
    (forall k, (k < 1)%nat ->
       prior !! k =
       Some (1 / Qc_of_nat (length Synthetic.all_shapes)
               * Qc_sum (map (fun s => (landmark s k).1) Synthetic.all_shapes),
             1 / Qc_of_nat (length Synthetic.all_shapes)
               * Qc_sum (map (fun s => (landmark s k).2) Synthetic.all_shapes))) /\
    (forall (h2 : heap) ptp j,
       h2 !! Synthetic.average_points = Some (NdPoints prior) -> slot_none h2 ptp j ->
       exists h3, init_prediction Synthetic.average_points ptp j h2 = (Ok tt, h3) /\
                  slot_holds h3 ptp j prior) /\
    (forall (h2 : heap) regs dfs img,
       h2 !! Synthetic.average_points = Some (NdPoints prior) ->
       predict_image Synthetic.average_points regs dfs img h2 =
       foldM (predict_step regs dfs img) (seq 0 (length regs)) (length h2)
             (h2 ++ [NdPoints prior])).
Proof.
  assert (Synthetic.all_shapes <> []) as Hne by discriminate.
  assert (Forall (fun s : Shape => length s = 1%nat) Synthetic.all_shapes) as Hall
    by (repeat constructor).
  assert (module_average_points Synthetic.train_points_resized Synthetic.heap0
          = (Ok Synthetic.average_points, take 3 Synthetic.heap1))
    as Hrun by by_evaluation.
  split; [reflexivity|]. split; [exact Hne|]. split; [exact Hall|]. split; [exact Hrun|].
  exact (shape_prior_is_mean_of_resized_training_set Synthetic.train_points_resized
           Synthetic.heap0 Synthetic.all_shapes 1%nat Synthetic.average_points
           (take 3 Synthetic.heap1) eq_refl Hne Hall Hrun).
Defined.

(** C2, as stated, fails.  In the heap of the script after loading and
    splitting, the trainer is handed the shapes of the split; the shape
    its first sample starts from is the mean of the whole training set,
    [(3, 5)], and not the mean of the shapes it was handed, [(4, 3)]. *)
Lemma shape_prior_is_not_mean_of_supplied_shapes :
  module_average_points Synthetic.train_points_resized Synthetic.heap0
    = (Ok Synthetic.average_points, take 3 Synthetic.heap1) /\
  Synthetic.heap1 !! Synthetic.train_pts_split_resized
    = Some (NdPointsArr Synthetic.split_shapes) /\
  (exists model h,
     cascaded_regression Synthetic.average_points 1 [Synthetic.half]
       Synthetic.train_imgs_split_preprocessed Synthetic.train_pts_split_resized
       Synthetic.heap1 = (Ok [model], h)) /\
  exists p h, Synthetic.first_initial_shape Synthetic.heap1 = (Ok p, h) /\
              p = [Synthetic.pt 3 5] /\
              np_mean_axis0 Synthetic.split_shapes = [Synthetic.pt 4 3] /\
              p <> np_mean_axis0 Synthetic.split_shapes.
Proof.
  split; [by_evaluation|]. split; [reflexivity|]. split.
  - exists Synthetic.model1, Synthetic.train1.2. by_evaluation.
  - exists [Synthetic.pt 3 5], (Synthetic.first_initial_shape Synthetic.heap1).2.
    repeat split; by_evaluation.
Qed.

Lemma fit_failure_aborts_training_witness :
  (1 < 2)%nat /\
  Synthetic.heap1 !! Synthetic.train_imgs_split_preprocessed
    = Some (NdImages Synthetic.split_images) /\
  Synthetic.wide_stage0 = (Ok Synthetic.wide_regs, Synthetic.wide_stage0.2) /\
  Synthetic.wide_batch = (Ok Synthetic.wide_rows, Synthetic.wide_batch.2) /\
  np_array (map fst Synthetic.wide_rows) = Ok (map fst Synthetic.wide_rows) /\
  np_array (map snd Synthetic.wide_rows) = Ok (map snd Synthetic.wide_rows) /\
  fit (map fst Synthetic.wide_rows) (map snd Synthetic.wide_rows) = Raise FitError /\
  cascaded_regression Synthetic.average_points 2 [Synthetic.half; 1]
    Synthetic.train_imgs_split_preprocessed Synthetic.wide_points Synthetic.heap1
    = (Raise FitError, Synthetic.wide_batch.2).
Proof.
  assert (1 < 2)%nat as Hi by lia.
  assert (Synthetic.wide_stage0 = (Ok Synthetic.wide_regs, Synthetic.wide_stage0.2))
    as Hbefore by by_evaluation.
  assert (Synthetic.wide_batch = (Ok Synthetic.wide_rows, Synthetic.wide_batch.2))
    as Hrows by by_evaluation.
  assert (np_array (map fst Synthetic.wide_rows) = Ok (map fst Synthetic.wide_rows))
    as Hx by by_evaluation.
  assert (np_array (map snd Synthetic.wide_rows) = Ok (map snd Synthetic.wide_rows))
    as Hy by by_evaluation.
  assert (fit (map fst Synthetic.wide_rows) (map snd Synthetic.wide_rows) = Raise FitError)
    as Hfit by by_evaluation.
  repeat (split; [assumption || reflexivity|]).
  exact (fit_failure_aborts_training Synthetic.average_points 2%nat [Synthetic.half; 1]
           Synthetic.train_imgs_split_preprocessed Synthetic.wide_points
           Synthetic.heap1 Synthetic.split_images
           1%nat Synthetic.wide_regs Synthetic.wide_stage0.2 Synthetic.wide_rows
           Synthetic.wide_batch.2 _ _ FitError Hi eq_refl Hbefore Hrows Hx Hy Hfit).
Defined.

Lemma prediction_is_deterministic_witness :
  Synthetic.train2.2 !! Synthetic.average_points = Some (NdPoints [Synthetic.pt 3 5]) /\
  Synthetic.train2.2 !! Synthetic.train_images_preprocessed
    = Some (NdImages Synthetic.all_images) /\
  match Synthetic.predict12.1, Synthetic.predict12_again.1 with
  | Ok l1, Ok l2 =>
      exists ss, Synthetic.predict12.2 !! l1 = Some (NdPointsArr ss) /\
                 Synthetic.predict12_again.2 !! l2 = Some (NdPointsArr ss) /\
                 Synthetic.predict12_again.2 !! l1 = Some (NdPointsArr ss)
  | Raise e1, Raise e2 => e1 = e2
  | _, _ => False
  end.
Proof.
  assert (Synthetic.train2.2 !! Synthetic.average_points
          = Some (NdPoints [Synthetic.pt 3 5])) as Ha by by_evaluation.
  assert (Synthetic.train2.2 !! Synthetic.train_images_preprocessed
          = Some (NdImages Synthetic.all_images)) as Hi by by_evaluation.
  split; [exact Ha|]. split; [exact Hi|].
  exact (prediction_is_deterministic Synthetic.average_points
           Synthetic.train_images_preprocessed Synthetic.regs2 [Synthetic.half; 1]
           Synthetic.train2.2 [Synthetic.pt 3 5] Synthetic.all_images
           Synthetic.predict12.1 Synthetic.predict12.2
           Synthetic.predict12_again.1 Synthetic.predict12_again.2
           Ha Hi (surjective_pairing _) (surjective_pairing _)).
Defined.

Lemma zero_stage_cascade_returns_prior_witness :
  Synthetic.heap1 !! Synthetic.average_points = Some (NdPoints [Synthetic.pt 3 5]) /\
  Synthetic.heap1 !! Synthetic.train_images_preprocessed
    = Some (NdImages Synthetic.all_images) /\
  exists l h',
    regression_predict Synthetic.average_points Synthetic.train_images_preprocessed
      [] [Synthetic.half] Synthetic.heap1 = (Ok l, h') /\
    h' !! l = Some (NdPointsArr (replicate 3 [Synthetic.pt 3 5])).
Proof.
  split; [reflexivity|]. split; [reflexivity|].
  exact (zero_stage_cascade_returns_prior Synthetic.average_points
           Synthetic.train_images_preprocessed [Synthetic.half] Synthetic.heap1
           [Synthetic.pt 3 5] Synthetic.all_images eq_refl eq_refl).
Defined.

Lemma descriptor_vector_length_witness :
  descriptor_contract 1 /\
  [Synthetic.pt 3 5; Synthetic.pt 1 1] <> [] /\
  exists x,
    descriptors_flatten
      (compute_descriptors Synthetic.img_a [Synthetic.pt 3 5; Synthetic.pt 1 1]) = Ok x /\
    length x = (2 * 1)%nat.
Proof.
  assert ([Synthetic.pt 3 5; Synthetic.pt 1 1] <> []) as Hne by discriminate.
  split; [exact synthetic_backend_contract|]. split; [exact Hne|].
  exact (proj1 (descriptor_vector_length 1%nat Synthetic.img_a
                  [Synthetic.pt 3 5; Synthetic.pt 1 1] synthetic_backend_contract Hne)).
Defined.

Lemma shape_prior_never_mutated_witness :
  Synthetic.heap1 !! Synthetic.average_points = Some (NdPoints [Synthetic.pt 3 5]) /\
  Synthetic.train2.2 !! Synthetic.average_points = Some (NdPoints [Synthetic.pt 3 5]) /\
  (regression_predict Synthetic.average_points Synthetic.train_images_preprocessed
     Synthetic.regs2 [Synthetic.half; 1] Synthetic.heap1).2 !! Synthetic.average_points
    = Some (NdPoints [Synthetic.pt 3 5]).
Proof.
  split; [reflexivity|].
  pose proof (shape_prior_never_mutated Synthetic.average_points Synthetic.heap1
                [Synthetic.pt 3 5] eq_refl) as (Htrain & Hpredict & _).
  split.
  - exact (Htrain 2%nat [Synthetic.half; 1] Synthetic.train_images_preprocessed
             Synthetic.train_points_resized
             Synthetic.train2.1 Synthetic.train2.2 (surjective_pairing _)).
  - exact (Hpredict Synthetic.train_images_preprocessed Synthetic.regs2
             [Synthetic.half; 1] _ _ (surjective_pairing _)).
Defined.

Lemma training_leaves_inputs_unchanged_witness :
  Synthetic.heap1 !! Synthetic.train_images_preprocessed
    = Some (NdImages Synthetic.all_images) /\
  Synthetic.heap1 !! Synthetic.train_points_resized
    = Some (NdPointsArr Synthetic.all_shapes) /\
  Synthetic.train2.2 !! Synthetic.train_images_preprocessed
    = Some (NdImages Synthetic.all_images) /\
  Synthetic.train2.2 !! Synthetic.train_points_resized
    = Some (NdPointsArr Synthetic.all_shapes) /\
  forall l o, Synthetic.heap1 !! l = Some o -> Synthetic.train2.2 !! l = Some o.
Proof.
  split; [reflexivity|]. split; [reflexivity|].
  exact (training_leaves_inputs_unchanged Synthetic.average_points 2%nat
           [Synthetic.half; 1] Synthetic.train_images_preprocessed
           Synthetic.train_points_resized
           Synthetic.heap1 Synthetic.all_images Synthetic.all_shapes
           Synthetic.train2.1 Synthetic.train2.2 eq_refl eq_refl (surjective_pairing _)).
Defined.

(** The runs above are runs that return: training yields one regressor per
    stage and prediction one shape per image. *)
Example synthetic_runs_return :
  (exists R1 R2, Synthetic.train2.1 = Ok [R1; R2]) /\
  (exists l ss, Synthetic.predict12.1 = Ok l /\
                Synthetic.predict12.2 !! l = Some (NdPointsArr ss) /\ length ss = 3%nat).
Proof.
  split.
  - exists (nth 0 Synthetic.regs2 []), (nth 1 Synthetic.regs2 []). by_evaluation.
  - exists (length Synthetic.predict12.2 - 1)%nat,
      (match last Synthetic.predict12.2 with Some (NdPointsArr ss) => ss | _ => [] end).
    repeat split; by_evaluation.
Qed.

(** * Beyond the core claims: the trainer *)

Lemma mapM_Ok_elem {A B} n (f : A -> M B) l (h : heap) bs h' :
  (forall a, preserves_below n (f a)) -> (n <= length h)%nat ->
  mapM f l h = (Ok bs, h') ->
  forall a, a ∈ l ->
    exists h1 b h2, f a h1 = (Ok b, h2) /\ (n <= length h1)%nat /\
                    forall l0, (l0 < n)%nat -> h1 !! l0 = h !! l0.
Proof.
  intros Hpb. revert h bs h'. induction l as [|a0 l IH]; intros h bs h' Hn; simpl.
  - intros _ a Ha. by apply elem_of_nil in Ha.
  - intros (b & h1 & Hstep & (bs' & h2 & Hrest & _)%bind_inv_Ok)%bind_inv_Ok a
      [->|Ha]%elem_of_cons.
    + exists h, b, h1. auto.
    + destruct (Hpb a0 h _ _ Hn Hstep) as [Hlen Hsame].
      destruct (IH h1 bs' h2 ltac:(lia) Hrest a Ha) as (ha & b' & hb & Hf & Hn' & Hsame').
      exists ha, b', hb. split; [done|]. split; [done|].
      intros l0 Hl0. rewrite Hsame', Hsame; auto.
Qed.

Section TrainerBounds.
Context {DB : DescriptorBackend} {RG : Regression}.
Variable average_points : loc.

(** A stage that returns has built the row of every sample. *)
Lemma returned_stage_rows num dfs ti tp (h0 : heap) imgs regs h' i j :
  h0 !! ti = Some (NdImages imgs) ->
  cascaded_regression average_points num dfs ti tp h0 = (Ok regs, h') ->
  (i < num)%nat -> (j < length imgs)%nat ->
  exists h1 row,
    row_ready dfs ti tp (length h0) i h1 j row /\
    forall l0, (l0 < length h0)%nat -> h1 !! l0 = h0 !! l0.
Proof.
  intros Hti Hrun Hi Hj. unfold cascaded_regression in Hrun.
  assert (py_len ti h0 = (Ok (length imgs), h0)) as Hlen.
  { unfold py_len, bind, load. by rewrite Hti. }
  rewrite (bind_Ok _ _ _ _ _ Hlen) in Hrun.
  unfold bind at 1, alloc at 1 in Hrun.
  set (ptp := length h0) in *. set (N := length imgs) in *.
  set (ha := h0 ++ [PyList (replicate N None)]) in *.
  assert (length h0 <= length ha)%nat as Hha by (unfold ha; rewrite length_app; lia).
  destruct (mapM_Ok_elem (length h0) _ _ _ _ _
              (fun i => pb_train_stage average_points (length h0) dfs ti tp ptp N i (le_n _))
              Hha Hrun i) as (h1 & model & h2 & Hstage & Hn1 & Hsame1);
    [apply elem_of_seq; lia|].
  apply train_stage_inv in Hstage as (rows & hb & us & Hrows & _).
  pose proof (first_loop_ready _ _ _ _ _ _ _ _ _ _ (NoDup_seq 0 N) Hrows) as Hready.
  destruct (Forall2_lookup_l _ _ _ j j Hready) as (row & _ & Hrow);
    [by apply lookup_seq_lt|].
  exists hb, row. split; [done|].
  intros l0 Hl0.
  assert (Hpb := pb_mapM (length h0) (sample_row average_points dfs ti tp ptp i)
                   (seq 0 N) (fun j => pb_sample_row average_points _ _ _ _ _ _ j (le_n _))).
  apply Hpb in Hrows as [_ Hrows]; [|done].
  rewrite Hrows, Hsame1 by done. unfold ha. by apply lookup_app_l.
Qed.

(** X1.  A training run that returns, returns one regressor per stage. *)
Theorem training_returns_one_regressor_per_stage num dfs ti tp (h : heap) regs h' :
  cascaded_regression average_points num dfs ti tp h = (Ok regs, h') ->
  length regs = num.
Proof.
  unfold cascaded_regression.
  intros (N & h1 & _ & (ptp & h2 & _ & Hstages)%bind_inv_Ok)%bind_inv_Ok.
  apply mapM_length in Hstages. by rewrite length_seq in Hstages.
Qed.

(** X2.  With at least one training image, a run handed fewer damping
    factors than stages never returns a model: a run that returns had a
    damping factor for every stage. *)
Theorem training_needs_a_damping_factor_per_stage
    num dfs ti tp (h : heap) imgs regs h' :
  h !! ti = Some (NdImages imgs) -> imgs <> [] ->
  cascaded_regression average_points num dfs ti tp h = (Ok regs, h') ->
  (num <= length dfs)%nat.
Proof.
  intros Hti Hne Hrun. destruct num as [|n]; [lia|].
  destruct (returned_stage_rows _ _ _ _ _ _ _ _ n 0 Hti Hrun) as (h1 & row & Hready & _);
    [lia|destruct imgs; [done|simpl; lia]|].
  destruct Hready as (img & p & gt & diff & d & _ & _ & _ & _ & _ & Hd & _).
  apply lookup_lt_Some in Hd. lia.
Qed.

(** X3.  A run with at least one stage that returns had a ground-truth
    shape for every training image: with fewer shapes than images the
    trainer never returns a model. *)
Theorem training_needs_a_shape_per_image num dfs ti tp (h : heap) imgs gts regs h' :
  h !! ti = Some (NdImages imgs) ->
  h !! tp = Some (NdPointsArr gts) ->
  (1 <= num)%nat ->
  cascaded_regression average_points num dfs ti tp h = (Ok regs, h') ->
  (length imgs <= length gts)%nat.
Proof.
  intros Hti Htp Hnum Hrun.
  destruct (decide (length imgs = 0)%nat) as [->|Hpos]; [lia|].
  destruct (returned_stage_rows _ _ _ _ _ _ _ _ 0 (length imgs - 1) Hti Hrun)
    as (h1 & row & Hready & Hsame); [lia|lia|].
  destruct Hready as (img & p & gt & diff & d & _ & _ & (gts' & Hg & Hj) & _).
  rewrite Hsame, Htp in Hg by (by eapply lookup_lt_Some).
  injection Hg as <-. apply lookup_lt_Some in Hj. lia.
Qed.

End TrainerBounds.

(** * Beyond the core claims: prediction replays training *)

Section Replay.
Context {DB : DescriptorBackend} {RG : Regression}.
Variable average_points : loc.

Lemma current_shape_fun h ptp j p p' :
  current_shape average_points h ptp j p ->
  current_shape average_points h ptp j p' -> p = p'.
Proof.
  intros [Hp|[Hn Ha]] [Hp'|[Hn' Ha']].
  - by eapply slot_holds_fun.
  - exfalso. by eapply slot_holds_not_none.
  - exfalso. by eapply slot_holds_not_none.
  - congruence.
Qed.

Lemma current_shape_rebinds h ptp k o h' j p :
  rebinds h ptp k o h' -> j <> k ->
  current_shape average_points h ptp j p -> current_shape average_points h' ptp j p.
Proof.
  intros Hre Hne [Hp|[Hn Ha]]; [left|right].
  - by eapply rebinds_slot_other.
  - split; [by eapply rebinds_slot_none|by eapply rebinds_prior].
Qed.

Lemma sample_row_current dfs ti tp ptp i j h row h' p :
  sample_row average_points dfs ti tp ptp i j h = (Ok row, h') ->
  current_shape average_points h ptp j p -> slot_holds h' ptp j p.
Proof.
  intros [Hready [->|(prior & Ha & Hnone & Hre)]]%sample_row_inv Hcur.
  - destruct Hready as (img & p' & gt & diff & d & _ & Hp' & _).
    destruct Hcur as [Hp|[Hn _]]; [done|].
    exfalso. by eapply slot_holds_not_none.
  - destruct Hcur as [Hp|[_ Ha']].
    + exfalso. by eapply slot_holds_not_none.
    + assert (prior = p) as -> by congruence. by eapply rebinds_slot_new.
Qed.

Lemma first_loop_current dfs ti tp ptp i js h rows h' :
  NoDup js ->
  mapM (sample_row average_points dfs ti tp ptp i) js h = (Ok rows, h') ->
  forall j p, j ∈ js -> current_shape average_points h ptp j p -> slot_holds h' ptp j p.
Proof.
  intros Hnd. revert h rows h'. induction js as [|j0 js IH]; intros h rows h'; simpl.
  - intros _ j p Hj. by apply elem_of_nil in Hj.
  - intros (row & h1 & Hstep &
            (rows' & h2 & Hrest & [_ ->]%ret_inv)%bind_inv_Ok)%bind_inv_Ok.
    apply NoDup_cons in Hnd as [Hnotin Hnd].
    intros j p [->|Hj]%elem_of_cons Hcur.
    + eapply (mapM_rebinds_effect _ ptp js h1 rows' _
                (fun hh => slot_holds hh ptp j0 p)); [| |exact Hrest|].
      * intros k ha b hb. apply sample_row_effect.
      * intros k o ha hb Hin Hre. eapply rebinds_slot_other; [done|]. by intros ->.
      * by eapply sample_row_current.
    + eapply (IH Hnd h1 rows' h2 Hrest); [done|].
      destruct (sample_row_effect _ _ _ _ _ _ _ _ _ _ Hstep) as [->|(o & Hre)]; [done|].
      eapply current_shape_rebinds; [done| |done]. by intros ->.
Qed.

(** One stage moves every sample from the shape it stands at to that
    shape's [stage_value]. *)
Lemma train_stage_spec dfs ti tp ptp num i h model h' :
  train_stage average_points dfs ti tp ptp num i h = (Ok model, h') ->
  forall j img p, (j < num)%nat ->
    image_at h ti j img -> current_shape average_points h ptp j p ->
    exists new, stage_value model dfs img p i = Ok new /\
                slot_holds h' ptp j new /\ image_at h' ti j img.
Proof.
  intros (rows & hb & us & Hrows & _ & _ & _ & Hus)%train_stage_inv j img p Hj Hi Hcur.
  assert (j ∈ seq 0 num) as Hin by (apply elem_of_seq; lia).
  pose proof (first_loop_current _ _ _ _ _ _ _ _ _ (NoDup_seq 0 num) Hrows j p Hin Hcur)
    as Hp.
  assert (image_at hb ti j img) as Hib.
  { eapply (mapM_rebinds_effect _ ptp _ h rows hb (fun hh => image_at hh ti j img));
      [| |exact Hrows|done].
    - intros k ha b hc. apply sample_row_effect.
    - intros k o ha hc _ Hre. by eapply rebinds_image. }
  destruct (update_loop_spec _ _ _ _ _ _ _ _ _ (NoDup_seq 0 num) Hus j img p Hin Hib Hp)
    as (new & Hnew & Hslot).
  exists new. split; [done|]. split; [done|].
  eapply (mapM_rebinds_effect _ ptp _ hb us h' (fun hh => image_at hh ti j img));
    [| |exact Hus|done].
  - intros k ha b hc. apply update_sample_effect.
  - intros k o ha hc _ Hre. by eapply rebinds_image.
Qed.

Lemma train_stages_spec dfs ti tp ptp num a n h models h' :
  mapM (train_stage average_points dfs ti tp ptp num) (seq a n) h = (Ok models, h') ->
  (forall j, (j < num)%nat -> exists img p,
     image_at h ti j img /\ current_shape average_points h ptp j p) ->
  forall j img p, (j < num)%nat ->
    image_at h ti j img -> current_shape average_points h ptp j p ->
    exists s, cascade_value dfs img models a p = Ok s /\
              current_shape average_points h' ptp j s /\
              (n <> 0%nat -> slot_holds h' ptp j s).
Proof.
  revert a h models h'. induction n as [|n IH]; intros a h models h'; simpl.
  - intros [[= ->] ->]%ret_inv _ j img p Hj Hi Hcur. exists p. simpl.
    split; [done|]. split; [done|]. intros Hn. by destruct Hn.
  - intros (model & h1 & Hstage &
            (ms & h2 & Hrest & [[= ->] ->]%ret_inv)%bind_inv_Ok)%bind_inv_Ok Hall
      j img p Hj Hi Hcur.
    destruct (train_stage_spec _ _ _ _ _ _ _ _ _ Hstage j img p Hj Hi Hcur)
      as (new & Hnew & Hslot & Hi1).
    destruct (IH (S a) h1 ms h2 Hrest) with (j := j) (img := img) (p := new)
      as (s & Hs & Hcur' & Hholds); [|done|done|by left|].
    { intros j' Hj'. destruct (Hall j' Hj') as (img' & p' & Hi' & Hcur'').
      destruct (train_stage_spec _ _ _ _ _ _ _ _ _ Hstage j' img' p' Hj' Hi' Hcur'')
        as (new' & _ & Hslot' & Hi1').
      exists img', new'. split; [done|by left]. }
    exists s. simpl. rewrite Hnew. simpl. split; [done|]. split; [done|].
    intros _. destruct n as [|n]; [|by apply Hholds].
    simpl in Hrest. apply ret_inv in Hrest as [_ ->].
    destruct Hcur' as [Hh|[Hn _]]; [done|].
    exfalso. by eapply slot_holds_not_none.
Qed.

(** The predictor's refinement loop over the fitted models is
    [cascade_value] from the prior. *)
Lemma fold_value_cascade_value dfs img pre models p :
  fold_value (pre ++ models) dfs img (seq (length pre) (length models)) p =
  cascade_value dfs img models (length pre) p.
Proof.
  revert pre p. induction models as [|m ms IH]; intros pre p; simpl; [done|].
  unfold step_value, stage_value, apply_regressor, py_getitem.
  rewrite list_lookup_middle by done. simpl.
  destruct (descriptors_flatten _) as [x|e]; simpl; [|done].
  destruct (predict m [x]) as [y|e]; simpl; [|done].
  destruct (reshape2 (concat y)) as [delta|e]; simpl; [|done].
  destruct (dfs !! length pre) as [d|]; simpl; [|done].
  destruct (np_add p (np_scale d delta)) as [new|e]; simpl; [|done].
  specialize (IH (pre ++ [m]) new).
  rewrite <- app_assoc, length_app in IH. simpl in IH.
  by rewrite Nat.add_1_r in IH.
Qed.

(** X4.  Prediction replays training.  After a training run of at least
    one stage that returns, the working shape of every training sample is
    the shape the predictor, given the returned regressors and the same
    damping factors, computes for that sample's image. *)
Theorem prediction_replays_training num dfs ti tp (h0 : heap) imgs prior regs h1 :
  h0 !! average_points = Some (NdPoints prior) ->
  h0 !! ti = Some (NdImages imgs) ->
  (1 <= num)%nat ->
  cascaded_regression average_points num dfs ti tp h0 = (Ok regs, h1) ->
  forall j img, imgs !! j = Some img ->
    exists s,
      slot_holds h1 (length h0) j s /\
      forall h : heap, h !! average_points = Some (NdPoints prior) ->
        exists l h', predict_image average_points regs dfs img h = (Ok l, h') /\
                     h' !! l = Some (NdPoints s).
Proof.
  intros Ha Hti Hnum Hrun j img Himg. unfold cascaded_regression in Hrun.
  assert (py_len ti h0 = (Ok (length imgs), h0)) as Hlen.
  { unfold py_len, bind, load. by rewrite Hti. }
  rewrite (bind_Ok _ _ _ _ _ Hlen) in Hrun.
  unfold bind at 1, alloc at 1 in Hrun.
  set (ptp := length h0) in *. set (N := length imgs) in *.
  set (ha := h0 ++ [PyList (replicate N None)]) in *.
  assert (forall j' img', imgs !! j' = Some img' ->
            image_at ha ti j' img' /\ current_shape average_points ha ptp j' prior)
    as Hstart.
  { intros j' img' Hj'. split.
    - exists imgs. split; [|done]. unfold ha.
      rewrite lookup_app_l; [done|by eapply lookup_lt_Some].
    - right. split.
      + exists (replicate N None). split; [apply lookup_snoc|].
        apply lookup_replicate_2. by eapply lookup_lt_Some.
      + unfold ha. rewrite lookup_app_l; [done|by eapply lookup_lt_Some]. }
  destruct (Hstart j img Himg) as [Hi Hcur].
  destruct (train_stages_spec _ _ _ _ _ _ _ _ _ _ Hrun) with (j := j) (img := img) (p := prior)
    as (s & Hs & _ & Hholds); [|by eapply lookup_lt_Some|done|done|].
  { intros j' Hj'. destruct (lookup_lt_is_Some_2 imgs j' Hj') as [img' Himg'].
    destruct (Hstart j' img' Himg'). eauto. }
  exists s. split; [apply Hholds; lia|].
  intros h Hh.
  destruct (predict_image average_points regs dfs img h) as [r h'] eqn:Hp.
  pose proof (predict_image_spec _ _ _ _ _ _ _ _ Hh Hp) as Hspec.
  unfold predict_image_value in Hspec.
  pose proof (fold_value_cascade_value dfs img [] regs prior) as Hfold.
  simpl in Hfold. rewrite Hfold, Hs in Hspec.
  destruct r as [l|e]; [|done].
  destruct Hspec as (s' & [= <-] & Hl). eauto.
Qed.

End Replay.

(** * Beyond the core claims: the damping schedule and the batch *)

Lemma mapM_ext_in {A B} (f g : A -> M B) l h :
  (forall a h1, a ∈ l -> f a h1 = g a h1) -> mapM f l h = mapM g l h.
Proof.
  revert h. induction l as [|a l IH]; intros h Hfg; simpl; [done|].
  rewrite (bind_cong _ _ _ _ (Hfg a h ltac:(by left))). apply bind_ext. intros b h1.
  rewrite (bind_cong _ _ _ _ (IH h1 (fun a' h' Ha => Hfg a' h' ltac:(by right)))). done.
Qed.

Lemma foldM_ext_in {A B} (f g : B -> A -> M B) l b h :
  (forall b' a h1, a ∈ l -> f b' a h1 = g b' a h1) -> foldM f l b h = foldM g l b h.
Proof.
  revert b h. induction l as [|a l IH]; intros b h Hfg; simpl; [done|].
  rewrite (bind_cong _ _ _ _ (Hfg b a h ltac:(by left))). apply bind_ext. intros b' h1.
  apply IH. intros b'' a' h' Ha. apply Hfg. by right.
Qed.

Lemma py_getitem_take {A} (l : list A) n i :
  (i < n)%nat -> py_getitem (take n l) i = py_getitem l i.
Proof. intros Hi. unfold py_getitem. by rewrite lookup_take_lt. Qed.

Lemma mapR_lookup {A B} (f : A -> result B) l bs i a :
  mapR f l = Ok bs -> l !! i = Some a ->
  exists b, f a = Ok b /\ bs !! i = Some b.
Proof.
  revert bs i. induction l as [|a0 l IH]; intros bs i; simpl; [done|].
  destruct (f a0) as [b0|e] eqn:Hf; simpl; [|done].
  destruct (mapR f l) as [bs'|e] eqn:Hl; simpl; [|done].
  intros [= <-]. destruct i as [|i]; simpl.
  - intros [= <-]. eauto.
  - intros Hi. by apply IH.
Qed.

Lemma mapR_length {A B} (f : A -> result B) l bs :
  mapR f l = Ok bs -> length bs = length l.
Proof.
  revert bs. induction l as [|a0 l IH]; intros bs; simpl; [by intros [= <-]|].
  destruct (f a0) as [b0|e]; simpl; [|done].
  destruct (mapR f l) as [bs'|e]; simpl; [|done].
  intros [= <-]. simpl. f_equal. by apply IH.
Qed.

Section Schedule.
Context {DB : DescriptorBackend} {RG : Regression}.
Variable average_points : loc.

Lemma fold_value_Ok_factor regs dfs img stages p s i :
  fold_value regs dfs img stages p = Ok s -> i ∈ stages -> is_Some (dfs !! i).
Proof.
  revert p. induction stages as [|i0 stages IH]; intros p; simpl.
  - intros _ Hi. by apply elem_of_nil in Hi.
  - destruct (step_value regs dfs img p i0) as [p'|e] eqn:Hstep; simpl; [|done].
    intros Hrest [->|Hi]%elem_of_cons; [|by eapply IH].
    unfold step_value in Hstep.
    destruct (py_getitem regs i0) as [regressor|e]; simpl in Hstep; [|done].
    destruct (descriptors_flatten _) as [x|e]; simpl in Hstep; [|done].
    destruct (predict regressor [x]) as [y|e]; simpl in Hstep; [|done].
    destruct (reshape2 (concat y)) as [delta|e]; simpl in Hstep; [|done].
    unfold py_getitem in Hstep. destruct (dfs !! i0); [eauto|done].
Qed.

Lemma sample_row_take dfs ti tp ptp num i j h :
  (i < num)%nat ->
  sample_row average_points (take num dfs) ti tp ptp i j h =
  sample_row average_points dfs ti tp ptp i j h.
Proof.
  intros Hi. unfold sample_row.
  do 6 (apply bind_ext; intros ? ?). by rewrite py_getitem_take.
Qed.

Lemma update_sample_take dfs ti ptp model num i k h :
  (i < num)%nat ->
  update_sample (take num dfs) ti ptp model i k h =
  update_sample dfs ti ptp model i k h.
Proof.
  intros Hi. unfold update_sample.
  do 5 (apply bind_ext; intros ? ?). by rewrite py_getitem_take.
Qed.

Lemma predict_step_take regs dfs img l num i h :
  (i < num)%nat ->
  predict_step regs (take num dfs) img l i h = predict_step regs dfs img l i h.
Proof.
  intros Hi. unfold predict_step.
  do 5 (apply bind_ext; intros ? ?). by rewrite py_getitem_take.
Qed.

(** X5.  Damping factors beyond the last stage are never read: training
    with [num_regressors] stages and prediction with [len(regressors)]
    regressors behave, on every heap, as they do on the schedule cut to
    that length. *)
Theorem surplus_damping_factors_are_ignored dfs :
  (forall num ti tp (h : heap),
     cascaded_regression average_points num dfs ti tp h =
     cascaded_regression average_points num (take num dfs) ti tp h) /\
  (forall images regs (h : heap),
     regression_predict average_points images regs dfs h =
     regression_predict average_points images regs (take (length regs) dfs) h).
Proof.
  split.
  - intros num ti tp h. unfold cascaded_regression.
    apply bind_ext. intros N h1. apply bind_ext. intros ptp h2.
    apply mapM_ext_in. intros i h3 [_ Hi]%elem_of_seq. unfold train_stage.
    rewrite (bind_cong _ _ _ _
               (mapM_ext _ _ _ _ (fun j hj => eq_sym (sample_row_take dfs ti tp ptp num i j hj Hi)))).
    do 4 (apply bind_ext; intros ? ?). apply bind_cong.
    apply mapM_ext. intros k hk. symmetry. by apply update_sample_take.
  - intros images regs h. unfold regression_predict.
    apply bind_ext. intros imgs h1. apply bind_cong.
    apply mapM_ext. intros img h2. unfold predict_image.
    apply bind_ext. intros l h3.
    apply foldM_ext_in. intros l' i h4 [_ Hi]%elem_of_seq.
    symmetry. by apply predict_step_take.
Qed.

(** X6.  A prediction over at least one image that returns had a damping
    factor for every regressor: with fewer factors than regressors the
    predictor never returns. *)
Theorem prediction_needs_a_damping_factor_per_regressor
    images regs dfs (h : heap) prior imgs l h' :
  h !! average_points = Some (NdPoints prior) ->
  h !! images = Some (NdImages imgs) -> imgs <> [] ->
  regression_predict average_points images regs dfs h = (Ok l, h') ->
  (length regs <= length dfs)%nat.
Proof.
  intros Ha Hi Hne Hrun.
  pose proof (regression_predict_spec _ _ _ _ _ _ _ _ _ Ha Hi Hrun) as (ss & Hv & _).
  unfold regression_predict_value in Hv.
  destruct (mapR _ imgs) as [ss'|e] eqn:Hmap; simpl in Hv; [|done].
  destruct imgs as [|img imgs]; [done|].
  destruct (mapR_lookup _ _ _ 0 img Hmap eq_refl) as (s & Hs & _).
  destruct (decide (length regs = 0)%nat) as [->|Hpos]; [lia|].
  destruct (fold_value_Ok_factor _ _ _ _ _ _ (length regs - 1) Hs) as [d Hd].
  { apply elem_of_seq. lia. }
  apply lookup_lt_Some in Hd. lia.
Qed.

(** X7.  The batch is the images one by one.  A prediction over a batch
    that returns holds one shape per image, and its entry [j] is the
    single shape returned by a prediction over image [j] alone. *)
Theorem batch_prediction_is_per_image
    images regs dfs (h : heap) prior imgs l h' :
  h !! average_points = Some (NdPoints prior) ->
  h !! images = Some (NdImages imgs) ->
  regression_predict average_points images regs dfs h = (Ok l, h') ->
  exists ss,
    h' !! l = Some (NdPointsArr ss) /\ length ss = length imgs /\
    forall j img (h1 : heap) single,
      imgs !! j = Some img ->
      h1 !! average_points = Some (NdPoints prior) ->
      h1 !! single = Some (NdImages [img]) ->
      exists s l1 h2,
        regression_predict average_points single regs dfs h1 = (Ok l1, h2) /\
        h2 !! l1 = Some (NdPointsArr [s]) /\ ss !! j = Some s.
Proof.
  intros Ha Hi Hrun.
  pose proof (regression_predict_spec _ _ _ _ _ _ _ _ _ Ha Hi Hrun) as (ss & Hv & Hl).
  unfold regression_predict_value in Hv.
  destruct (mapR _ imgs) as [ss'|e] eqn:Hmap; simpl in Hv; [|done].
  assert (ss' = ss) as ->.
  { unfold np_array in Hv. destruct (regular ss'); congruence. }
  exists ss. split; [done|]. split; [by eapply mapR_length|].
  intros j img h1 single Hj Ha1 Hs1.
  destruct (mapR_lookup _ _ _ j img Hmap Hj) as (s & Hs & Hssj).
  destruct (regression_predict average_points single regs dfs h1) as [r h2] eqn:Hrun1.
  pose proof (regression_predict_spec _ _ _ _ _ _ _ _ _ Ha1 Hs1 Hrun1) as Hspec.
  unfold regression_predict_value in Hspec. simpl in Hspec. rewrite Hs in Hspec.
  simpl in Hspec. destruct r as [l1|e']; [|done].
  destruct Hspec as (ss1 & [= <-] & Hl1). exists s, l1, h2. auto.
Qed.

(** X8.  Prediction writes to no cell that existed before the call: the
    images, the prior and every other cell hold what they held, and the
    array it returns is a cell of its own, allocated during the call. *)
Theorem prediction_returns_a_new_array images regs dfs (h : heap) l h' :
  regression_predict average_points images regs dfs h = (Ok l, h') ->
  h !! l = None /\ is_Some (h' !! l) /\
  forall l0 o, h !! l0 = Some o -> h' !! l0 = Some o.
Proof.
  intros Hrun.
  pose proof (regression_predict_frame _ _ _ _ _ _ _ Hrun) as [_ Hsame].
  unfold regression_predict in Hrun.
  apply bind_inv_Ok in Hrun as (imgs & h1 & [-> _]%load_images_inv & Hk).
  apply bind_inv_Ok in Hk as (ls & h2 & Hls & Hk).
  apply bind_inv_Ok in Hk as (shapes & h3 & Hshapes & Hk).
  apply bind_inv_Ok in Hk as (stacked & h4 & [_ ->]%lift_inv & [= <- <-]).
  assert (length h <= length h2)%nat as Hlen2.
  { eapply (pb_mapM 0 _ imgs (fun i => pb_predict_image average_points 0 regs dfs i));
      [|done]. lia. }
  assert (length h2 <= length h3)%nat as Hlen3.
  { eapply (pb_mapM 0 _ ls (fun i => pb_load_points 0 i)); [|done]. lia. }
  split; [apply lookup_ge_None_2; lia|]. split; [rewrite lookup_snoc; eauto|].
  intros l0 o Hl0. rewrite Hsame; [done|by eapply lookup_lt_Some].
Qed.

End Schedule.

(** * Beyond the core claims: an empty training set *)

Section NoImages.
Context {DB : DescriptorBackend} {RG : Regression}.
Variable average_points : loc.

Lemma train_stage_no_images dfs ti tp ptp i (h : heap) :
  train_stage average_points dfs ti tp ptp 0 i h =
  (match fit [] [] with Ok m => Ok m | Raise e => Raise e end, h).
Proof.
  unfold train_stage. simpl. rewrite bind_ret_l. simpl.
  unfold np_array. simpl. unfold bind, lift, ret.
  destruct (fit [] []); reflexivity.
Qed.

(** X9.  With no training image every stage hands the fit an empty batch:
    the run returns [num_regressors] copies of what the fit makes of it, or
    raises what the fit raises (at stage 0), having read neither the
    shapes nor the prior and allocated only its list. *)
Theorem training_on_no_images num dfs ti tp (h : heap) :
  h !! ti = Some (NdImages []) ->
  cascaded_regression average_points num dfs ti tp h =
  (match fit [] [] with
   | Ok m => Ok (replicate num m)
   | Raise e => match num with 0%nat => Ok [] | S _ => Raise e end
   end, h ++ [PyList []]).
Proof.
  intros Hti. unfold cascaded_regression.
  assert (py_len ti h = (Ok 0%nat, h)) as Hlen.
  { unfold py_len, bind, load. by rewrite Hti. }
  rewrite (bind_Ok _ _ _ _ _ Hlen). unfold bind at 1, alloc at 1. simpl.
  assert (forall a (ha : heap),
            mapM (train_stage average_points dfs ti tp (length h) 0) (seq a num) ha =
            (match fit [] [] with
             | Ok m => Ok (replicate num m)
             | Raise e => match num with 0%nat => Ok [] | S _ => Raise e end
             end, ha)) as Hloop; [|apply Hloop].
  induction num as [|n IH]; intros a ha; simpl.
  - by destruct (fit [] []).
  - rewrite (bind_cong _ _ _ _ (train_stage_no_images _ _ _ _ _ _)).
    unfold bind at 1. destruct (fit [] []) as [m|e] eqn:Hfit; [|done].
    by rewrite (bind_Ok _ _ _ _ _ (IH (S a) ha)).
Qed.

End NoImages.

(** * Beyond the core claims: resizing shapes *)

Lemma regular_map_same_length {A B} (g : list A -> list B) (rows : list (list A)) :
  (forall r, length (g r) = length r) -> regular (map g rows) = regular rows.
Proof.
  intros Hg. destruct rows as [|r rows]; simpl; [done|].
  rewrite Hg. induction rows as [|r' rows IH]; simpl; [done|].
  by rewrite Hg, IH.
Qed.

Lemma length_np_mul_scalar (s : Shape) scale : length (np_mul_scalar s scale) = length s.
Proof. unfold np_mul_scalar. by rewrite length_map. Qed.

Lemma np_mul_scalar_one (s : Shape) : np_mul_scalar s 1 = s.
Proof.
  unfold np_mul_scalar. rewrite <- (map_id s) at 2. apply map_ext. intros [x y]. simpl.
  by rewrite !Qcmult_1_r.
Qed.

Lemma resize_points_eq pointsArr scale (h : heap) ss :
  h !! pointsArr = Some (NdPointsArr ss) -> regular ss = true ->
  resize_points pointsArr scale h =
  (Ok (length h), h ++ [NdPointsArr (map (fun s => np_mul_scalar s scale) ss)]).
Proof.
  intros Hl Hreg. unfold resize_points.
  rewrite (bind_Ok _ _ _ _ _ (load_points_arr_eq _ _ _ Hl)).
  unfold np_array.
  rewrite (regular_map_same_length _ _ (fun s => length_np_mul_scalar s scale)), Hreg.
  reflexivity.
Qed.

(** X10.  Resizing writes to no array.  Called on a regular array,
    [resize_points] returns a new array with as many shapes, each with as
    many landmarks as the shape it was computed from; the array it was
    given and every other cell hold what they held.  With scale 1 the new
    array holds the coordinates of the old one. *)
Theorem resize_points_returns_a_new_array pointsArr scale (h : heap) ss :
  h !! pointsArr = Some (NdPointsArr ss) -> regular ss = true ->
  exists l h' ss',
    resize_points pointsArr scale h = (Ok l, h') /\
    h !! l = None /\
    h' !! l = Some (NdPointsArr ss') /\
    (forall l0 o, h !! l0 = Some o -> h' !! l0 = Some o) /\
    Forall2 (fun s s' : Shape => length s' = length s) ss ss' /\
    (scale = 1 -> ss' = ss).
Proof.
  intros Hl Hreg.
  exists (length h), (h ++ [NdPointsArr (map (fun s => np_mul_scalar s scale) ss)]).
  eexists. split; [by apply resize_points_eq|].
  split; [by apply lookup_ge_None_2|]. split; [apply lookup_snoc|].
  split; [intros l0 o Hl0; by apply lookup_app_l_Some|]. split.
  - apply Forall2_fmap_r, Forall_Forall2_diag, Forall_forall.
    intros s _. apply length_np_mul_scalar.
  - intros ->. rewrite <- (map_id ss) at 2. apply map_ext. intros s.
    apply np_mul_scalar_one.
Qed.

(** The script's scale and its inverse, [0.25] and [4.0], cancel; both are
    powers of two, whose products float64 computes without rounding. *)
Lemma resize_scale_cancels : resize_scale * (1 / resize_scale) = 1.
Proof. by apply Qc_is_canon. Qed.

Lemma np_mul_scalar_back (s : Shape) :
  np_mul_scalar (np_mul_scalar s resize_scale) (1 / resize_scale) = s.
Proof.
  unfold np_mul_scalar. rewrite map_map. rewrite <- (map_id s) at 2.
  apply map_ext. intros [x y]. simpl.
  by rewrite <- !Qcmult_assoc, resize_scale_cancels, !Qcmult_1_r.
Qed.

Lemma np_mul_scalar_forth (s : Shape) :
  np_mul_scalar (np_mul_scalar s (1 / resize_scale)) resize_scale = s.
Proof.
  unfold np_mul_scalar. rewrite map_map. rewrite <- (map_id s) at 2.
  apply map_ext. intros [x y]. simpl.
  by rewrite <- !Qcmult_assoc, (Qcmult_comm (1 / resize_scale)),
       resize_scale_cancels, !Qcmult_1_r.
Qed.

Lemma resize_points_twice pointsArr a b (h : heap) ss :
  h !! pointsArr = Some (NdPointsArr ss) -> regular ss = true ->
  exists l1 h1 l2 h2,
    resize_points pointsArr a h = (Ok l1, h1) /\
    resize_points l1 b h1 = (Ok l2, h2) /\
    h2 !! l2 = Some (NdPointsArr
                       (map (fun s => np_mul_scalar (np_mul_scalar s a) b) ss)).
Proof.
  intros Hl Hreg.
  set (ss1 := map (fun p => np_mul_scalar p a) ss).
  assert (regular ss1 = true) as Hreg1.
  { unfold ss1.
    by rewrite (regular_map_same_length _ _ (fun p => length_np_mul_scalar p a)). }
  exists (length h), (h ++ [NdPointsArr ss1]), (length (h ++ [NdPointsArr ss1])). eexists.
  split; [by apply resize_points_eq|].
  split; [apply resize_points_eq; [apply lookup_snoc|done]|].
  rewrite lookup_snoc. unfold ss1. by rewrite map_map.
Qed.

(** X11.  Resizing back recovers the shapes.  A regular array resized by
    the script's [resize_scale] and the result resized by
    [1 / resize_scale], the factor the script applies to its final
    predictions, holds the shapes it started from; so does an array
    resized by [1 / resize_scale] and then by [resize_scale]. *)
Theorem resize_points_round_trip pointsArr (h : heap) ss :
  h !! pointsArr = Some (NdPointsArr ss) -> regular ss = true ->
  (exists l1 h1 l2 h2,
     resize_points pointsArr resize_scale h = (Ok l1, h1) /\
     resize_points l1 (1 / resize_scale) h1 = (Ok l2, h2) /\
     h2 !! l2 = Some (NdPointsArr ss)) /\
  (exists l1 h1 l2 h2,
     resize_points pointsArr (1 / resize_scale) h = (Ok l1, h1) /\
     resize_points l1 resize_scale h1 = (Ok l2, h2) /\
     h2 !! l2 = Some (NdPointsArr ss)).
Proof.
  intros Hl Hreg. split.
  - destruct (resize_points_twice pointsArr resize_scale (1 / resize_scale) h ss Hl Hreg)
      as (l1 & h1 & l2 & h2 & H1 & H2 & Hres).
    exists l1, h1, l2, h2. split; [done|]. split; [done|].
    rewrite Hres. f_equal. f_equal. rewrite <- (map_id ss) at 2.
    apply map_ext. intros s. apply np_mul_scalar_back.
  - destruct (resize_points_twice pointsArr (1 / resize_scale) resize_scale h ss Hl Hreg)
      as (l1 & h1 & l2 & h2 & H1 & H2 & Hres).
    exists l1, h1, l2, h2. split; [done|]. split; [done|].
    rewrite Hres. f_equal. f_equal. rewrite <- (map_id ss) at 2.
    apply map_ext. intros s. apply np_mul_scalar_forth.
Qed.

(** The sum along the first axis of the shapes resized by the script's
    scale is the resized sum. *)
Lemma np_sum_axis0_resize (ss : list Shape) :
  np_sum_axis0 (map (fun p => np_mul_scalar p resize_scale) ss) =
  np_mul_scalar (np_sum_axis0 ss) resize_scale.
Proof.
  induction ss as [|s rest IH]; [done|].
  destruct rest as [|s' rest']; [done|].
  rewrite np_sum_axis0_cons by done.
  change (map (fun p => np_mul_scalar p resize_scale) (s :: s' :: rest'))
    with (np_mul_scalar s resize_scale
            :: map (fun p => np_mul_scalar p resize_scale) (s' :: rest')).
  rewrite np_sum_axis0_cons by done. rewrite IH.
  generalize (np_sum_axis0 (s' :: rest')) as acc. clear.
  induction s as [|[x y] s IHs]; intros [|[x' y'] acc]; simpl; try done.
  rewrite IHs. unfold pt_op. simpl. f_equal. f_equal; ring.
Qed.

(** X12.  The prior of the script is the resized mean of the shapes as
    loaded: [average_points] computed from
    [resize_points(train_points, resize_scale)] (lines 82-85) is the mean
    of [train_points] times [resize_scale]. *)
Theorem prior_of_resized_shapes_is_resized_prior pointsArr (h : heap) ss :
  h !! pointsArr = Some (NdPointsArr ss) -> regular ss = true ->
  exists resized h1 avg h2,
    resize_points pointsArr resize_scale h = (Ok resized, h1) /\
    module_average_points resized h1 = (Ok avg, h2) /\
    h2 !! avg = Some (NdPoints (np_mul_scalar (np_mean_axis0 ss) resize_scale)).
Proof.
  intros Hl Hreg.
  exists (length h). do 3 eexists.
  split; [by apply resize_points_eq|]. unfold module_average_points.
  rewrite (bind_Ok _ _ _ _ _ (load_points_arr_eq _ _ _ (lookup_snoc _ _))).
  split; [reflexivity|]. rewrite lookup_snoc. f_equal. f_equal.
  unfold np_mean_axis0. rewrite length_map, np_sum_axis0_resize.
  unfold np_mul_scalar. rewrite !map_map. apply map_ext. intros [x y]. simpl.
  f_equal; unfold Qcdiv; ring.
Qed.

(** * Beyond the core claims: distances *)

Section Distances.
Context {SQ : NpSqrt}.

Lemma squares_of_difference_sym (p q : Point) :
  (pt_op Qcminus p q).1 * (pt_op Qcminus p q).1 +
  (pt_op Qcminus p q).2 * (pt_op Qcminus p q).2 =
  (pt_op Qcminus q p).1 * (pt_op Qcminus q p).1 +
  (pt_op Qcminus q p).2 * (pt_op Qcminus q p).2.
Proof. destruct p, q. unfold pt_op. simpl. ring. Qed.

Lemma distances_zip_sym (a b : Shape) :
  map (fun p : Point => np_sqrt (p.1 * p.1 + p.2 * p.2)) (zip_with (pt_op Qcminus) a b) =
  map (fun p : Point => np_sqrt (p.1 * p.1 + p.2 * p.2)) (zip_with (pt_op Qcminus) b a).
Proof.
  revert b. induction a as [|p a IH]; intros [|q b]; simpl; try done.
  f_equal; [|apply IH]. f_equal. apply squares_of_difference_sym.
Qed.

Lemma distances_broadcast_sym (p : Point) (b : Shape) :
  map (fun p : Point => np_sqrt (p.1 * p.1 + p.2 * p.2)) (map (fun q => pt_op Qcminus p q) b) =
  map (fun p : Point => np_sqrt (p.1 * p.1 + p.2 * p.2)) (map (fun q => pt_op Qcminus q p) b).
Proof.
  rewrite !map_map. apply map_ext. intros q. f_equal. apply squares_of_difference_sym.
Qed.

(** X13.  The distance is symmetric: swapping the predicted and the
    ground-truth points gives the same distances, or the same exception. *)
Theorem euclid_dist_symmetric (pred_pts gt_pts : list Shape) :
  euclid_dist pred_pts gt_pts = euclid_dist gt_pts pred_pts.
Proof.
  unfold euclid_dist, np_sub, np_binop.
  generalize (concat pred_pts) as a. generalize (concat gt_pts) as b. intros b a.
  destruct (decide (length a = length b)) as [Hab|Hab].
  - rewrite decide_True by done. simpl. f_equal. apply distances_zip_sym.
  - rewrite decide_False by done.
    destruct a as [|p [|p' a]], b as [|q [|q' b]]; cbn [length] in Hab; try done;
      cbv [rbind]; cbv iota; f_equal;
      first [apply distances_broadcast_sym | symmetry; apply distances_broadcast_sym].
Qed.

(** X14.  One distance per point: two arrays with the same number of
    points give a vector with that many entries; two arrays with different
    numbers of points, neither of them a single point, raise
    [ValueError]. *)
Theorem euclid_dist_one_distance_per_point (pred_pts gt_pts : list Shape) :
  (length (concat pred_pts) = length (concat gt_pts) ->
   exists d, euclid_dist pred_pts gt_pts = Ok d /\
             length d = length (concat pred_pts)) /\
  (length (concat pred_pts) <> length (concat gt_pts) ->
   length (concat pred_pts) <> 1%nat -> length (concat gt_pts) <> 1%nat ->
   euclid_dist pred_pts gt_pts = Raise ValueError).
Proof.
  unfold euclid_dist, np_sub, np_binop.
  generalize (concat pred_pts) as a. generalize (concat gt_pts) as b. intros b a.
  split.
  - intros Hab. rewrite decide_True by done. simpl. eexists. split; [done|].
    rewrite length_map, length_zip_with_l_eq; done.
  - intros Hab Ha Hb. rewrite decide_False by done.
    by destruct a as [|p [|p' a]], b as [|q [|q' b]].
Qed.

(** X15.  A prediction that is the ground truth has distance zero at every
    point, when the square root of zero is zero. *)
Theorem euclid_dist_of_equal_points (pts : list Shape) :
  np_sqrt 0 = 0 ->
  euclid_dist pts pts = Ok (replicate (length (concat pts)) 0).
Proof.
  intros Hsqrt. unfold euclid_dist, np_sub, np_binop.
  generalize (concat pts) as a. intros a.
  rewrite decide_True by done. simpl. f_equal.
  induction a as [|[x y] a IH]; simpl; [done|].
  rewrite IH. f_equal. unfold pt_op. simpl.
  replace ((x - x) * (x - x) + (y - y) * (y - y)) with 0 by ring. done.
Qed.

End Distances.

(** * Beyond the core claims: saving the predictions *)

Lemma regular_Forall_length {A} (r : list A) (rows : list (list A)) :
  regular (r :: rows) = true -> Forall (fun r' => length r' = length r) (r :: rows).
Proof.
  simpl. intros Hall. constructor; [done|].
  induction rows as [|r' rows IH]; simpl in *; [constructor|].
  apply andb_prop in Hall as [Hr' Hall]. constructor; [by apply Nat.eqb_eq|auto].
Qed.

Lemma length_flatten (s : Shape) : length (flatten s) = (length s * 2)%nat.
Proof. unfold flatten. induction s as [|[x y] s IH]; simpl; [done|]. by rewrite IH. Qed.

Lemma mapR_reshape2_flatten (points : list Shape) :
  mapR reshape2 (map flatten points) = Ok points.
Proof.
  induction points as [|s points IH]; simpl; [done|].
  by rewrite reshape2_flatten, IH.
Qed.

Lemma save_as_csv_inr (points : list Shape) location (fs fs' : files) :
  save_as_csv points location fs = inr fs' ->
  length points = 554%nat /\ shape_tail_prod points = 10%nat /\
  fs' = <[location +:+ "/results_task2.csv" := map flatten points]> fs.
Proof.
  unfold save_as_csv.
  destruct (Nat.eqb (length points) 554) eqn:Hn; cbn [negb]; [|done].
  destruct (Nat.eqb (shape_tail_prod points) (5 * 2)) eqn:Hk; cbn [negb]; [|done].
  intros [= <-]. apply Nat.eqb_eq in Hn, Hk. auto.
Qed.

(** X16.  What a successful save holds.  If [save_as_csv] writes, it was
    given exactly 554 shapes of 5 landmarks each; the file
    [location/results_task2.csv] then holds 554 rows of 10 numbers, from
    which the shapes are read back by [reshape(-1, 2)], and no other file
    is touched. *)
Theorem save_as_csv_saved (points : list Shape) location (fs fs' : files) :
  regular points = true ->
  save_as_csv points location fs = inr fs' ->
  length points = 554%nat /\
  Forall (fun s : Shape => length s = 5%nat) points /\
  exists rows,
    fs' !! (location +:+ "/results_task2.csv") = Some rows /\
    length rows = 554%nat /\
    Forall (fun r : Vec => length r = 10%nat) rows /\
    mapR reshape2 rows = Ok points /\
    forall path, path <> location +:+ "/results_task2.csv" -> fs' !! path = fs !! path.
Proof.
  intros Hreg (Hn & Hk & ->)%save_as_csv_inr.
  assert (Forall (fun s : Shape => length s = 5%nat) points) as Hfive.
  { destruct points as [|s points]; [constructor|].
    simpl in Hk. apply regular_Forall_length in Hreg.
    eapply Forall_impl; [exact Hreg|]. simpl. intros s' ->. lia. }
  split; [done|]. split; [done|].
  exists (map flatten points). split; [apply lookup_insert_eq|].
  split; [by rewrite length_map|]. split.
  - apply Forall_forall. intros r Hr. apply list_elem_of_In, in_map_iff in Hr
      as (s & <- & Hs).
    rewrite length_flatten. apply list_elem_of_In in Hs.
    rewrite Forall_forall in Hfive. rewrite (Hfive s Hs). done.
  - split; [apply mapR_reshape2_flatten|].
    intros path Hpath. by apply lookup_insert_ne.
Qed.

(** X17.  What makes a save fail.  Any number of shapes other than 554
    fails the first assertion, whatever the shapes; 554 shapes whose
    landmark count is not 5 fail the second. *)
Theorem save_as_csv_assertions (points : list Shape) location (fs : files) K :
  Forall (fun s : Shape => length s = K) points ->
  (length points <> 554%nat ->
   save_as_csv points location fs = inl wrong_number_of_image_points) /\
  (length points = 554%nat -> K <> 5%nat ->
   save_as_csv points location fs = inl wrong_number_of_points).
Proof.
  intros HK. unfold save_as_csv. split.
  - intros Hn. apply Nat.eqb_neq in Hn. by rewrite Hn.
  - intros Hn Hk.
    assert (Nat.eqb (length points) 554 = true) as -> by (by apply Nat.eqb_eq).
    assert (Nat.eqb (shape_tail_prod points) (5 * 2) = false) as ->; [|done].
    apply Nat.eqb_neq. destruct points as [|s points]; [done|].
    apply Forall_cons in HK as [Hs _]. simpl. lia.
Qed.

(** * Beyond the core claims: the last step of the script *)

Section LastStep.
Context {DB : DescriptorBackend} {RG : Regression}.
Variable average_points : loc.

Lemma regression_predict_regular images regs dfs (h : heap) prior imgs l h' :
  h !! average_points = Some (NdPoints prior) ->
  h !! images = Some (NdImages imgs) ->
  regression_predict average_points images regs dfs h = (Ok l, h') ->
  exists ss, h' !! l = Some (NdPointsArr ss) /\ regular ss = true /\
             mapR (predict_image_value prior regs dfs) imgs = Ok ss.
Proof.
  intros Ha Hi Hrun.
  pose proof (regression_predict_spec _ _ _ _ _ _ _ _ _ Ha Hi Hrun) as (ss & Hv & Hl).
  unfold regression_predict_value in Hv.
  destruct (mapR _ imgs) as [ss'|e] eqn:Hmap; simpl in Hv; [|done].
  unfold np_array in Hv. destruct (regular ss') eqn:Hreg; [|done].
  injection Hv as ->. eauto.
Qed.

(** X18.  The last step of the script completes only on 554 test images.
    If training, prediction, resizing and saving all go through, there
    were exactly 554 test images; the training run on the training images
    and shapes returned a list of regressors, and [./results_task2.csv]
    holds one row per test image, the flattened prediction of the cascade
    of those regressors for that image, scaled back by
    [1 / resize_scale]; no other file and no cell that existed before is
    changed. *)
Theorem final_predictions_saved num dfs ti tp test_images (fs fs' : files)
    (h : heap) prior imgs h' :
  h !! average_points = Some (NdPoints prior) ->
  h !! test_images = Some (NdImages imgs) ->
  final_predictions average_points num dfs ti tp test_images fs h = (Ok (inr fs'), h') ->
  length imgs = 554%nat /\
  (exists regs h1 rows,
     cascaded_regression average_points num dfs ti tp h = (Ok regs, h1) /\
     length regs = num /\
     fs' !! "./results_task2.csv" = Some rows /\ length rows = 554%nat /\
     forall j img, imgs !! j = Some img ->
       exists s, predict_image_value prior regs dfs img = Ok s /\
                 rows !! j = Some (flatten (np_mul_scalar s (1 / resize_scale)))) /\
  (forall path, path <> "./results_task2.csv" -> fs' !! path = fs !! path) /\
  (forall l o, h !! l = Some o -> h' !! l = Some o).
Proof.
  intros Ha Hi. unfold final_predictions.
  intros (regs & h1 & Htrain & Hk)%bind_inv_Ok.
  apply bind_inv_Ok in Hk as (l & h2 & Hpredict & Hk).
  apply bind_inv_Ok in Hk as (l2 & h3 & Hresize & Hk).
  apply bind_inv_Ok in Hk as (points & h4 & [-> Hpoints]%load_points_arr_inv & Hk).
  apply ret_inv in Hk as [[= Hsave] ->]. symmetry in Hsave.
  specialize (Hpoints _ eq_refl).
  pose proof (cascaded_regression_frame _ _ _ _ _ _ _ _ Htrain) as [Hlen1 Hsame1].
  pose proof (regression_predict_frame _ _ _ _ _ _ _ Hpredict) as [Hlen2 Hsame2].
  assert (h1 !! average_points = Some (NdPoints prior)) as Ha1.
  { rewrite Hsame1; [done|by eapply lookup_lt_Some]. }
  assert (h1 !! test_images = Some (NdImages imgs)) as Hi1.
  { rewrite Hsame1; [done|by eapply lookup_lt_Some]. }
  destruct (regression_predict_regular _ _ _ _ _ _ _ _ Ha1 Hi1 Hpredict)
    as (ss & Hl & Hreg & Hmap).
  rewrite (resize_points_eq _ _ _ _ Hl Hreg) in Hresize.
  injection Hresize as <- <-. rewrite lookup_snoc in Hpoints.
  injection Hpoints as <-.
  apply save_as_csv_inr in Hsave as (Hn & _ & ->).
  rewrite length_map in Hn. rewrite (mapR_length _ _ _ Hmap) in Hn.
  split; [done|]. split; [|split].
  - exists regs, h1. eexists. split; [done|].
    split.
    { pose proof Htrain as Hc. unfold cascaded_regression in Hc.
      apply bind_inv_Ok in Hc as (N & hN & _ & (ptp & hp & _ & Hst)%bind_inv_Ok).
      apply mapM_length in Hst. by rewrite length_seq in Hst. }
    split; [apply lookup_insert_eq|].
    split; [by rewrite !length_map, (mapR_length _ _ _ Hmap)|].
    intros j img Hj. destruct (mapR_lookup _ _ _ j img Hmap Hj) as (s & Hs & Hssj).
    exists s. split; [done|]. by rewrite !lookup_map, Hssj.
  - intros path Hpath. by apply lookup_insert_ne.
  - intros l0 o Hl0. rewrite lookup_app_l, Hsame2, Hsame1; [done| | |];
      apply lookup_lt_Some in Hl0; lia.
Qed.

End LastStep.

(** ** The damping schedule *)

Lemma length_np_linspace start stop num : length (np_linspace start stop num) = num.
Proof.
  unfold np_linspace.
  assert (forall A (f g : Qc -> A) (b : bool) l, length (if b then map f l else map g l) = length l) as Hif.
  { intros A f g [] l; by rewrite length_map. }
  destruct (decide (1 < num)%nat); [rewrite length_insert|];
    rewrite length_map; (destruct (num - 1)%nat; [|destruct (decide _)]);
    by rewrite !length_map, length_seq.
Qed.

Lemma Qc_of_nat_pos n : (0 < n)%nat -> 0 < Qc_of_nat n.
Proof.
  intros Hn. unfold Qc_of_nat, Qclt. simpl. rewrite !Qred_correct.
  unfold Qlt. simpl. lia.
Qed.

Lemma Qc_of_nat_lt n m : (n < m)%nat -> Qc_of_nat n < Qc_of_nat m.
Proof.
  intros Hn. unfold Qc_of_nat, Qclt. simpl. rewrite !Qred_correct.
  unfold Qlt. simpl. lia.
Qed.

(** Closed form of the samples. *)
Lemma np_linspace_lookup start stop num i :
  (i < num)%nat -> (1 < num)%nat ->
  np_linspace start stop num !! i
  = Some (Qc_of_nat i * ((stop - start) / Qc_of_nat (num - 1)) + start).
Proof.
  intros Hi Hnum. unfold np_linspace.
  destruct (decide (1 < num)%nat); [|lia].
  assert (Qc_of_nat (num - 1) <> 0) as Hdiv.
  { intros H0. pose proof (Qc_of_nat_pos (num - 1) ltac:(lia)) as Hp.
    rewrite H0 in Hp. by apply Qclt_not_eq in Hp. }
  destruct (num - 1)%nat as [|d] eqn:Hd; [lia|]. rewrite <- Hd in *.
  destruct (decide (i = num - 1)%nat) as [->|Hne].
  - rewrite list_lookup_insert_eq.
    2:{ rewrite length_map. destruct (decide _); rewrite !length_map, length_seq; lia. }
    f_equal. field. exact Hdiv.
  - rewrite list_lookup_insert_ne by lia.
    rewrite list_lookup_fmap.
    destruct (decide _) as [Hz|Hz]; rewrite !list_lookup_fmap, lookup_seq_lt by lia; simpl.
    + f_equal. field. exact Hdiv.
    + reflexivity.
Qed.


Lemma np_linspace_step_neg start stop n :
  stop < start -> (0 < n)%nat -> 0 < - ((stop - start) / Qc_of_nat n).
Proof.
  intros Hlt Hn.
  replace (- ((stop - start) / Qc_of_nat n)) with ((start + - stop) * / Qc_of_nat n).
  - apply Qcmult_pos_pos.
    + by apply (proj1 (Qclt_minus_iff _ _)).
    + by apply Qcinv_pos, Qc_of_nat_pos.
  - unfold Qcdiv, Qcminus. ring.
Qed.

Lemma np_linspace_decreasing start stop num i j di dj :
  stop < start -> (i < j)%nat ->
  np_linspace start stop num !! i = Some di ->
  np_linspace start stop num !! j = Some dj ->
  dj < di.
Proof.
  intros Hlt Hij Hi Hj.
  assert (j < num)%nat as Hjn.
  { apply lookup_lt_Some in Hj. by rewrite length_np_linspace in Hj. }
  rewrite np_linspace_lookup in Hi, Hj by lia.
  injection Hi as <-. injection Hj as <-.
  apply (proj2 (Qclt_minus_iff _ _)).
  set (s := (stop - start) / Qc_of_nat (num - 1)).
  replace (Qc_of_nat i * s + start + - (Qc_of_nat j * s + start))
    with ((Qc_of_nat j + - Qc_of_nat i) * - s) by ring.
  apply Qcmult_pos_pos.
  - by apply (proj1 (Qclt_minus_iff _ _)), Qc_of_nat_lt.
  - apply np_linspace_step_neg; [done|lia].
Qed.

Lemma np_linspace_first start stop num :
  (0 < num)%nat -> np_linspace start stop num !! 0%nat = Some start.
Proof.
  intros Hnum. destruct (decide (1 < num)%nat) as [Hbig|Hone].
  - rewrite np_linspace_lookup by lia. f_equal.
    replace (Qc_of_nat 0) with 0 by by apply Qc_is_canon. ring.
  - assert (num = 1%nat) as -> by lia. unfold np_linspace. simpl.
    f_equal. replace (Qc_of_nat 0) with 0 by by apply Qc_is_canon. ring.
Qed.

Lemma np_linspace_last start stop num :
  (1 < num)%nat -> np_linspace start stop num !! (num - 1)%nat = Some stop.
Proof.
  intros Hnum. unfold np_linspace. destruct (decide (1 < num)%nat); [|lia].
  apply list_lookup_insert_eq. rewrite length_map.
  destruct (num - 1)%nat eqn:Hd; [lia|]. rewrite <- Hd.
  destruct (decide _); rewrite !length_map, length_seq; lia.
Qed.

Lemma np_linspace_between start stop num i d :
  stop < start -> np_linspace start stop num !! i = Some d -> stop <= d /\ d <= start.
Proof.
  intros Hlt Hi.
  assert (i < num)%nat as Hin.
  { apply lookup_lt_Some in Hi. by rewrite length_np_linspace in Hi. }
  split.
  - destruct (decide (1 < num)%nat) as [Hbig|Hone].
    + destruct (decide (i = num - 1)%nat) as [->|Hne].
      * rewrite np_linspace_last in Hi by done. injection Hi as <-. apply Qcle_refl.
      * apply Qclt_le_weak.
        eapply (np_linspace_decreasing start stop num i (num - 1)); eauto; [lia|].
        by apply np_linspace_last.
    + assert (i = 0%nat) as -> by lia.
      rewrite np_linspace_first in Hi by lia. injection Hi as <-.
      by apply Qclt_le_weak.
  - destruct i as [|i].
    + rewrite np_linspace_first in Hi by lia. injection Hi as <-. apply Qcle_refl.
    + apply Qclt_le_weak.
      eapply (np_linspace_decreasing start stop num 0 (S i)); eauto; [lia|].
      apply np_linspace_first; lia.
Qed.

(** X19. The damping schedule of the script, for any number of stages:
    it holds one factor per stage, starts at 1.0, ends at 0.1 when there
    is more than one stage, decreases strictly from stage to stage, and
    every factor lies between 0.1 and 1.0. *)
Theorem damping_schedule_decreases (num_regressors : nat) :
  length (damping_factors num_regressors) = num_regressors /\
  ((0 < num_regressors)%nat -> damping_factors num_regressors !! 0%nat = Some 1) /\
  ((1 < num_regressors)%nat ->
   damping_factors num_regressors !! (num_regressors - 1)%nat = Some (Q2Qc (1 # 10))) /\
  (forall i j di dj, (i < j)%nat ->
     damping_factors num_regressors !! i = Some di ->
     damping_factors num_regressors !! j = Some dj -> dj < di) /\
  (forall i d, damping_factors num_regressors !! i = Some d ->
     Q2Qc (1 # 10) <= d /\ d <= 1).
Proof.
  assert (Q2Qc (1 # 10) < 1) as Hlt by done.
  unfold damping_factors. split; [apply length_np_linspace|].
  split; [apply np_linspace_first|]. split; [apply np_linspace_last|].
  split.
  - intros i j di dj. by apply np_linspace_decreasing.
  - intros i d. by apply np_linspace_between.
Qed.

(** * Concrete runs for the further properties *)

Lemma training_returns_one_regressor_per_stage_witness :
  Synthetic.train2 = (Ok Synthetic.regs2, Synthetic.train2.2) /\
  length Synthetic.regs2 = 2%nat.
Proof.
  assert (Synthetic.train2 = (Ok Synthetic.regs2, Synthetic.train2.2)) as Hrun
    by by_evaluation.
  split; [exact Hrun|].
  exact (training_returns_one_regressor_per_stage Synthetic.average_points 2%nat
           [Synthetic.half; 1] Synthetic.train_images_preprocessed
           Synthetic.train_points_resized Synthetic.heap1
           Synthetic.regs2 Synthetic.train2.2 Hrun).
Defined.

Lemma training_needs_a_damping_factor_per_stage_witness :
  Synthetic.heap1 !! Synthetic.train_images_preprocessed
    = Some (NdImages Synthetic.all_images) /\
  Synthetic.all_images <> [] /\
  Synthetic.train2 = (Ok Synthetic.regs2, Synthetic.train2.2) /\
  (2 <= length [Synthetic.half; 1%Qc])%nat.
Proof.
  assert (Synthetic.all_images <> []) as Hne by discriminate.
  assert (Synthetic.train2 = (Ok Synthetic.regs2, Synthetic.train2.2)) as Hrun
    by by_evaluation.
  split; [reflexivity|]. split; [exact Hne|]. split; [exact Hrun|].
  exact (training_needs_a_damping_factor_per_stage Synthetic.average_points 2%nat
           [Synthetic.half; 1] Synthetic.train_images_preprocessed
           Synthetic.train_points_resized Synthetic.heap1 Synthetic.all_images
           Synthetic.regs2 Synthetic.train2.2 eq_refl Hne Hrun).
Defined.

Lemma training_needs_a_shape_per_image_witness :
  Synthetic.heap1 !! Synthetic.train_images_preprocessed
    = Some (NdImages Synthetic.all_images) /\
  Synthetic.heap1 !! Synthetic.train_points_resized
    = Some (NdPointsArr Synthetic.all_shapes) /\
  (1 <= 2)%nat /\
  Synthetic.train2 = (Ok Synthetic.regs2, Synthetic.train2.2) /\
  (length Synthetic.all_images <= length Synthetic.all_shapes)%nat.
Proof.
  assert (1 <= 2)%nat as Hnum by lia.
  assert (Synthetic.train2 = (Ok Synthetic.regs2, Synthetic.train2.2)) as Hrun
    by by_evaluation.
  split; [reflexivity|]. split; [reflexivity|]. split; [exact Hnum|].
  split; [exact Hrun|].
  exact (training_needs_a_shape_per_image Synthetic.average_points 2%nat
           [Synthetic.half; 1] Synthetic.train_images_preprocessed
           Synthetic.train_points_resized Synthetic.heap1 Synthetic.all_images
           Synthetic.all_shapes Synthetic.regs2 Synthetic.train2.2
           eq_refl eq_refl Hnum Hrun).
Defined.

Lemma prediction_replays_training_witness :
  Synthetic.heap1 !! Synthetic.average_points = Some (NdPoints [Synthetic.pt 3 5]) /\
  Synthetic.heap1 !! Synthetic.train_images_preprocessed
    = Some (NdImages Synthetic.all_images) /\
  (1 <= 2)%nat /\
  Synthetic.train2 = (Ok Synthetic.regs2, Synthetic.train2.2) /\
  exists s,
    slot_holds Synthetic.train2.2 (length Synthetic.heap1) 1 s /\
    forall h : heap,
      h !! Synthetic.average_points = Some (NdPoints [Synthetic.pt 3 5]) ->
      exists l h',
        predict_image Synthetic.average_points Synthetic.regs2 [Synthetic.half; 1]
          Synthetic.img_b h = (Ok l, h') /\
        h' !! l = Some (NdPoints s).
Proof.
  assert (1 <= 2)%nat as Hnum by lia.
  assert (Synthetic.train2 = (Ok Synthetic.regs2, Synthetic.train2.2)) as Hrun
    by by_evaluation.
  split; [reflexivity|]. split; [reflexivity|]. split; [exact Hnum|].
  split; [exact Hrun|].
  exact (prediction_replays_training Synthetic.average_points 2%nat
           [Synthetic.half; 1] Synthetic.train_images_preprocessed
           Synthetic.train_points_resized Synthetic.heap1 Synthetic.all_images
           [Synthetic.pt 3 5] Synthetic.regs2 Synthetic.train2.2
           eq_refl eq_refl Hnum Hrun 1%nat Synthetic.img_b eq_refl).
Defined.

Lemma prediction_needs_a_damping_factor_per_regressor_witness :
  Synthetic.train2.2 !! Synthetic.average_points = Some (NdPoints [Synthetic.pt 3 5]) /\
  Synthetic.train2.2 !! Synthetic.train_images_preprocessed
    = Some (NdImages Synthetic.all_images) /\
  Synthetic.all_images <> [] /\
  Synthetic.predict12
    = (Ok (length Synthetic.predict12.2 - 1)%nat, Synthetic.predict12.2) /\
  (length Synthetic.regs2 <= length [Synthetic.half; 1%Qc])%nat.
Proof.
  assert (Synthetic.train2.2 !! Synthetic.average_points
          = Some (NdPoints [Synthetic.pt 3 5])) as Ha by by_evaluation.
  assert (Synthetic.train2.2 !! Synthetic.train_images_preprocessed
          = Some (NdImages Synthetic.all_images)) as Hi by by_evaluation.
  assert (Synthetic.all_images <> []) as Hne by discriminate.
  assert (Synthetic.predict12
          = (Ok (length Synthetic.predict12.2 - 1)%nat, Synthetic.predict12.2)) as Hrun
    by by_evaluation.
  split; [exact Ha|]. split; [exact Hi|]. split; [exact Hne|]. split; [exact Hrun|].
  exact (prediction_needs_a_damping_factor_per_regressor Synthetic.average_points
           Synthetic.train_images_preprocessed Synthetic.regs2 [Synthetic.half; 1]
           Synthetic.train2.2 [Synthetic.pt 3 5] Synthetic.all_images _ _
           Ha Hi Hne Hrun).
Defined.

Lemma batch_prediction_is_per_image_witness :
  Synthetic.train2.2 !! Synthetic.average_points = Some (NdPoints [Synthetic.pt 3 5]) /\
  Synthetic.train2.2 !! Synthetic.train_images_preprocessed
    = Some (NdImages Synthetic.all_images) /\
  Synthetic.predict12
    = (Ok (length Synthetic.predict12.2 - 1)%nat, Synthetic.predict12.2) /\
  exists ss,
    Synthetic.predict12.2 !! (length Synthetic.predict12.2 - 1)%nat
      = Some (NdPointsArr ss) /\
    length ss = length Synthetic.all_images /\
    forall j img (h1 : heap) single,
      Synthetic.all_images !! j = Some img ->
      h1 !! Synthetic.average_points = Some (NdPoints [Synthetic.pt 3 5]) ->
      h1 !! single = Some (NdImages [img]) ->
      exists s l1 h2,
        regression_predict Synthetic.average_points single Synthetic.regs2
          [Synthetic.half; 1] h1 = (Ok l1, h2) /\
        h2 !! l1 = Some (NdPointsArr [s]) /\ ss !! j = Some s.
Proof.
  assert (Synthetic.train2.2 !! Synthetic.average_points
          = Some (NdPoints [Synthetic.pt 3 5])) as Ha by by_evaluation.
  assert (Synthetic.train2.2 !! Synthetic.train_images_preprocessed
          = Some (NdImages Synthetic.all_images)) as Hi by by_evaluation.
  assert (Synthetic.predict12
          = (Ok (length Synthetic.predict12.2 - 1)%nat, Synthetic.predict12.2)) as Hrun
    by by_evaluation.
  split; [exact Ha|]. split; [exact Hi|]. split; [exact Hrun|].
  exact (batch_prediction_is_per_image Synthetic.average_points
           Synthetic.train_images_preprocessed Synthetic.regs2 [Synthetic.half; 1]
           Synthetic.train2.2 [Synthetic.pt 3 5] Synthetic.all_images _ _
           Ha Hi Hrun).
Defined.

Lemma prediction_returns_a_new_array_witness :
  Synthetic.predict12
    = (Ok (length Synthetic.predict12.2 - 1)%nat, Synthetic.predict12.2) /\
  Synthetic.train2.2 !! (length Synthetic.predict12.2 - 1)%nat = None /\
  is_Some (Synthetic.predict12.2 !! (length Synthetic.predict12.2 - 1)%nat) /\
  forall l0 o, Synthetic.train2.2 !! l0 = Some o -> Synthetic.predict12.2 !! l0 = Some o.
Proof.
  assert (Synthetic.predict12
          = (Ok (length Synthetic.predict12.2 - 1)%nat, Synthetic.predict12.2)) as Hrun
    by by_evaluation.
  split; [exact Hrun|].
  exact (prediction_returns_a_new_array Synthetic.average_points
           Synthetic.train_images_preprocessed Synthetic.regs2 [Synthetic.half; 1]
           Synthetic.train2.2 _ _ Hrun).
Defined.

Lemma training_on_no_images_witness :
  Scripted.heap_no_images !! 0%nat = Some (NdImages []) /\
  cascaded_regression 2 3 [Synthetic.half; 1; 1] 0 1 Scripted.heap_no_images
    = (Raise FitError, Scripted.heap_no_images ++ [PyList []]).
Proof.
  split; [reflexivity|].
  exact (training_on_no_images 2%nat 3%nat [Synthetic.half; 1; 1] 0%nat 1%nat
           Scripted.heap_no_images eq_refl).
Defined.

Lemma resize_points_returns_a_new_array_witness :
  Synthetic.heap1 !! Synthetic.train_points_resized
    = Some (NdPointsArr Synthetic.all_shapes) /\
  regular Synthetic.all_shapes = true /\
  exists l h' ss',
    resize_points Synthetic.train_points_resized Synthetic.half Synthetic.heap1
      = (Ok l, h') /\
    Synthetic.heap1 !! l = None /\
    h' !! l = Some (NdPointsArr ss') /\
    (forall l0 o, Synthetic.heap1 !! l0 = Some o -> h' !! l0 = Some o) /\
    Forall2 (fun s s' : Shape => length s' = length s) Synthetic.all_shapes ss' /\
    (Synthetic.half = 1 -> ss' = Synthetic.all_shapes).
Proof.
  split; [reflexivity|]. split; [reflexivity|].
  exact (resize_points_returns_a_new_array Synthetic.train_points_resized Synthetic.half
           Synthetic.heap1 Synthetic.all_shapes eq_refl eq_refl).
Defined.

Lemma resize_points_round_trip_witness :
  Synthetic.heap1 !! Synthetic.train_points_resized
    = Some (NdPointsArr Synthetic.all_shapes) /\
  regular Synthetic.all_shapes = true /\
  (exists l1 h1 l2 h2,
     resize_points Synthetic.train_points_resized resize_scale Synthetic.heap1
       = (Ok l1, h1) /\
     resize_points l1 (1 / resize_scale) h1 = (Ok l2, h2) /\
     h2 !! l2 = Some (NdPointsArr Synthetic.all_shapes)) /\
  (exists l1 h1 l2 h2,
     resize_points Synthetic.train_points_resized (1 / resize_scale) Synthetic.heap1
       = (Ok l1, h1) /\
     resize_points l1 resize_scale h1 = (Ok l2, h2) /\
     h2 !! l2 = Some (NdPointsArr Synthetic.all_shapes)).
Proof.
  split; [reflexivity|]. split; [reflexivity|].
  exact (resize_points_round_trip Synthetic.train_points_resized
           Synthetic.heap1 Synthetic.all_shapes eq_refl eq_refl).
Defined.

Lemma prior_of_resized_shapes_is_resized_prior_witness :
  Synthetic.heap1 !! Synthetic.train_points_resized
    = Some (NdPointsArr Synthetic.all_shapes) /\
  regular Synthetic.all_shapes = true /\
  exists resized h1 avg h2,
    resize_points Synthetic.train_points_resized resize_scale Synthetic.heap1
      = (Ok resized, h1) /\
    module_average_points resized h1 = (Ok avg, h2) /\
    h2 !! avg = Some (NdPoints (np_mul_scalar (np_mean_axis0 Synthetic.all_shapes)
                                  resize_scale)).
Proof.
  split; [reflexivity|]. split; [reflexivity|].
  exact (prior_of_resized_shapes_is_resized_prior Synthetic.train_points_resized
           Synthetic.heap1 Synthetic.all_shapes eq_refl eq_refl).
Defined.

Lemma euclid_dist_of_equal_points_witness :
  np_sqrt (NpSqrt := Scripted.sqrt_on_squares) 0 = 0 /\
  euclid_dist (H := Scripted.sqrt_on_squares) Synthetic.all_shapes Synthetic.all_shapes
    = Ok (replicate (length (concat Synthetic.all_shapes)) 0).
Proof.
  assert (np_sqrt (NpSqrt := Scripted.sqrt_on_squares) 0 = 0) as Hsqrt by by_evaluation.
  split; [exact Hsqrt|].
  exact (euclid_dist_of_equal_points (SQ := Scripted.sqrt_on_squares)
           Synthetic.all_shapes Hsqrt).
Defined.

Lemma save_as_csv_saved_witness :
  regular Scripted.predictions_554 = true /\
  save_as_csv Scripted.predictions_554 "." ∅
    = inr (<["./results_task2.csv" := map flatten Scripted.predictions_554]> ∅) /\
  length Scripted.predictions_554 = 554%nat /\
  Forall (fun s : Shape => length s = 5%nat) Scripted.predictions_554 /\
  exists rows,
    (<["./results_task2.csv" := map flatten Scripted.predictions_554]> ∅ : files)
      !! ("." +:+ "/results_task2.csv") = Some rows /\
    length rows = 554%nat /\
    Forall (fun r : Vec => length r = 10%nat) rows /\
    mapR reshape2 rows = Ok Scripted.predictions_554 /\
    forall path, path <> "." +:+ "/results_task2.csv" ->
      (<["./results_task2.csv" := map flatten Scripted.predictions_554]> ∅ : files)
        !! path = (∅ : files) !! path.
Proof.
  assert (regular Scripted.predictions_554 = true) as Hreg by (vm_compute; reflexivity).
  assert (save_as_csv Scripted.predictions_554 "." ∅
          = inr (<["./results_task2.csv" := map flatten Scripted.predictions_554]> ∅))
    as Hsave by (vm_compute; reflexivity).
  split; [exact Hreg|]. split; [exact Hsave|].
  exact (save_as_csv_saved Scripted.predictions_554 "." ∅ _ Hreg Hsave).
Defined.

Lemma save_as_csv_assertions_witness :
  Forall (fun s : Shape => length s = 1%nat) Synthetic.all_shapes /\
  (length Synthetic.all_shapes <> 554%nat ->
   save_as_csv Synthetic.all_shapes "." ∅ = inl wrong_number_of_image_points) /\
  (length Synthetic.all_shapes = 554%nat -> 1%nat <> 5%nat ->
   save_as_csv Synthetic.all_shapes "." ∅ = inl wrong_number_of_points).
Proof.
  assert (Forall (fun s : Shape => length s = 1%nat) Synthetic.all_shapes) as Hall
    by (repeat constructor).
  split; [exact Hall|].
  exact (save_as_csv_assertions Synthetic.all_shapes "." ∅ 1%nat Hall).
Defined.

Lemma final_predictions_saved_witness :
  Scripted.heap_last_step !! 2%nat = Some (NdPoints Scripted.five_points) /\
  Scripted.heap_last_step !! 3%nat = Some (NdImages (replicate 554 Synthetic.img_b)) /\
  final_predictions (DB := Synthetic.backend) (RG := Scripted.intercept_regression)
    2 1 [Synthetic.half] 1 0 3 ∅ Scripted.heap_last_step
    = (Ok (inr Scripted.last_step_files), Scripted.last_step.2) /\
  length (replicate 554 Synthetic.img_b) = 554%nat /\
  (exists regs h1 rows,
     cascaded_regression (DB := Synthetic.backend) (RG := Scripted.intercept_regression)
       2 1 [Synthetic.half] 1 0 Scripted.heap_last_step = (Ok regs, h1) /\
     length regs = 1%nat /\
     Scripted.last_step_files !! "./results_task2.csv" = Some rows /\
     length rows = 554%nat /\
     forall j img, replicate 554 Synthetic.img_b !! j = Some img ->
       exists s,
         predict_image_value (DB := Synthetic.backend) (RG := Scripted.intercept_regression)
           Scripted.five_points regs [Synthetic.half] img = Ok s /\
         rows !! j = Some (flatten (np_mul_scalar s (1 / resize_scale)))) /\
  (forall path, path <> "./results_task2.csv" ->
     Scripted.last_step_files !! path = (∅ : files) !! path) /\
  (forall l o, Scripted.heap_last_step !! l = Some o -> Scripted.last_step.2 !! l = Some o).
Proof.
  assert (final_predictions (DB := Synthetic.backend)
            (RG := Scripted.intercept_regression) 2 1 [Synthetic.half] 1 0 3 ∅
            Scripted.heap_last_step
          = (Ok (inr Scripted.last_step_files), Scripted.last_step.2))
    as Hrun by by_evaluation.
  assert (Scripted.heap_last_step !! 2%nat = Some (NdPoints Scripted.five_points))
    as Hprior by reflexivity.
  assert (Scripted.heap_last_step !! 3%nat
          = Some (NdImages (replicate 554 Synthetic.img_b))) as Himgs by reflexivity.
  split; [exact Hprior|]. split; [exact Himgs|]. split; [exact Hrun|].
  pose proof (final_predictions_saved (DB := Synthetic.backend)
           (RG := Scripted.intercept_regression) 2%nat 1%nat [Synthetic.half]
           1%nat 0%nat 3%nat ∅ Scripted.last_step_files Scripted.heap_last_step
           Scripted.five_points (replicate 554 Synthetic.img_b) Scripted.last_step.2
           Hprior Himgs Hrun) as HH.
  exact HH.
Defined.
